(** * cti-data-sanitizer: the batch cleaning pipeline of [main.py]

    A shallow embedding of [src/main.py].  The script walks [./part2],
    sends every non-blank [.txt] file to a chat-completion service and
    writes the answer under [./cleaned_txt_part2].  Everything it touches
    is outside the process: the file system, the wall clock, the remote
    service and the console.  These are gathered in one record, [world],
    and the three Python functions become computations in a state and
    exception monad over it. *)

From Stdlib Require Import Ascii String QArith Qround Lqa.
From stdpp Require Import gmap strings list fin_maps.

Open Scope string_scope.
Open Scope list_scope.

(** ** Text

    A Python [str] is modelled by [string]; a character stands for the code
    point of the same number (the code points below 256). *)

(** [str.isspace] on one character: the code points 9-13, 28-32, 133, 160. *)
Definition is_space (c : ascii) : bool :=
  let n := nat_of_ascii c in
  (Nat.leb 9 n && Nat.leb n 13) || (Nat.leb 28 n && Nat.leb n 32)
  || Nat.eqb n 133 || Nat.eqb n 160.

Fixpoint lstrip (s : string) : string :=
  match s with
  | String c s' => if is_space c then lstrip s' else s
  | EmptyString => EmptyString
  end.

Fixpoint rstrip (s : string) : string :=
  match s with
  | String c s' =>
      match rstrip s' with
      | EmptyString => if is_space c then EmptyString else String c EmptyString
      | r => String c r
      end
  | EmptyString => EmptyString
  end.

(** [s.strip()] *)
Definition strip (s : string) : string := rstrip (lstrip s).

(** Truth value of a [str]: false exactly for the empty string. *)
Definition truthy (s : string) : bool :=
  match s with EmptyString => false | _ => true end.

(** Every character of [s] is white space (so also: [s] is empty). *)
Fixpoint blank (s : string) : bool :=
  match s with
  | String c s' => is_space c && blank s'
  | EmptyString => true
  end.

(** [s.endswith(suffix)] *)
Definition endswith (s suffix : string) : bool :=
  let n := String.length s in
  let m := String.length suffix in
  Nat.leb m n && String.eqb (substring (n - m) m s) suffix.

(** ** Paths and the file system

    A path is the list of its components below the working directory, so
    [os.path.join d f] appends one component and [./part2] is [["part2"]].
    The file system maps the paths that exist to what is there. *)

Definition path := list string.

Inductive node :=
| Dir
| File (content : option string).
(* [File None]: a file whose [f.read()] raises (not valid UTF-8, say). *)

#[global] Instance node_eq_dec : EqDecision node.
Proof. solve_decision. Defined.

Abbreviation fsys := (gmap path node).

Definition os_path_join (d : path) (f : string) : path := d ++ [f].

Definition os_path_basename (p : path) : string := List.last p "".

(** What is at [p]; the working directory itself always is a directory. *)
Definition stat (fs : fsys) (p : path) : option node :=
  match p with
  | [] => Some Dir
  | _ => fs !! p
  end.

Definition exists_ (fs : fsys) (p : path) : bool :=
  match stat fs p with Some _ => true | None => false end.

Definition isdir (fs : fsys) (p : path) : bool :=
  match stat fs p with Some Dir => true | _ => false end.

Definition isfile (fs : fsys) (p : path) : bool :=
  match stat fs p with Some (File _) => true | _ => false end.

(** The name of [q] inside directory [d], when [q] is directly inside. *)
Fixpoint child_of (d q : path) : option string :=
  match d, q with
  | [], [x] => Some x
  | a :: d', b :: q' => if String.eqb a b then child_of d' q' else None
  | _, _ => None
  end.

(** The entries of directory [d], in the order the map yields them. *)
Definition entries (fs : fsys) (d : path) : list string :=
  omap (fun kv => child_of d (fst kv)) (map_to_list fs).

(** [os.makedirs(p, exist_ok=True)]: walk down [p], creating what is
    missing; [None] when a component exists and is not a directory. *)
Fixpoint makedirs_from (above rest : path) (fs : fsys) : option fsys :=
  match rest with
  | [] => Some fs
  | x :: rest' =>
      let p := above ++ [x] in
      match fs !! p with
      | Some Dir => makedirs_from p rest' fs
      | Some (File _) => None
      | None => makedirs_from p rest' (<[p := Dir]> fs)
      end
  end.

Definition makedirs (p : path) (fs : fsys) : option fsys :=
  makedirs_from [] p fs.

(** [open(p, 'w')]: the directory of [p] must exist and [p] itself must
    not be a directory, else the call fails.  When it succeeds the file is
    there and is empty, whatever it held before. *)
Definition open_w (p : path) (fs : fsys) : option fsys :=
  match p with
  | [] => None
  | _ =>
      if isdir fs (removelast p) && negb (isdir fs p)
      then Some (<[p := File (Some "")]> fs)
      else None
  end.

(** ** The world outside the process *)

(** The exceptions of the model; each is a subclass of [Exception]. *)
Inductive exn :=
| OSError              (* a failed file-system call *)
| UnicodeDecodeError   (* [f.read()] on bytes that are not UTF-8 *)
| IndexError           (* [response.choices[0]] on an empty list *)
| ZeroDivisionError
| OpenAIError          (* the client constructor without credentials *)
| UnicodeEncodeError   (* [f.write(s)] on a text that has no UTF-8 bytes *)
| APIError (msg : string).  (* whatever the service call raises *)

(** What can go wrong with [f.write(s)] (or the closing of the file) once
    [open(p, 'w')] has made or emptied the file: nothing, or an exception
    raised when [n] characters of [s] have reached the file. *)
Definition fault : Type := option (exn * nat).

(** Lines 89-90, [with open(p, 'w') as f: f.write(s)], on the file system
    [fs]: the exception raised, if any, and the file system left behind.
    When [open] fails nothing has changed.  Once the file is open it has
    lost what it held; it ends with the whole text when nothing goes wrong,
    and with the characters written before the exception otherwise. *)
Definition write_outcome (flt : fault) (p : path) (s : string) (fs : fsys)
    : option exn * fsys :=
  match open_w p fs with
  | None => (Some OSError, fs)
  | Some opened =>
      match flt with
      | None => (None, <[p := File (Some s)]> opened)
      | Some (e, n) => (Some e, <[p := File (Some (substring 0 n s))]> opened)
      end
  end.

(** What [client.chat.completions.create] gives back: for each choice the
    [content] of its message, which the client library types as optional. *)
Definition response := list (option string).

(** One [print] call each; numbers are kept as numbers. *)
Inductive event :=
| EvApiError (e : exn)
| EvNoTxt (dir : string)
| EvDirFound (dir : string) (n : nat)
| EvProcessing (filename : string)
| EvReadFailed (e : exn)
| EvSkipEmpty
| EvSuccess (file_elapsed api_time : Q)
| EvWriteFailed (e : exn)
| EvNoResult
| EvRootMissing
| EvStart
| EvRule
| EvNoSubdirs
| EvUnits (n : nat)
| EvUnit (name : string)
| EvUnitDone (success file_count skip : nat) (dir_elapsed : Q)
| EvHeading (title : string)
| EvDirRate (name : string) (success total : nat) (success_rate time : Q)
| EvDirNoFiles (name : string)
| EvTotalDirs (n : nat)
| EvTotalFiles (n : nat)
| EvTotalSuccess (n : nat)
| EvTotalSkip (n : nat)
| EvAvgFile (seconds : Q)
| EvAvgApi (seconds : Q)
| EvApiRatio (percent : Q)
| EvTotalElapsed (seconds : Q)
| EvMinutes (minutes : Z) (seconds : Q)
| EvSavedTo (root : path).

(** The state the script runs in.  The clock, the service and the faults
    of the disk are given from outside: the n-th reading of the clock, the
    reply to the n-th call, and, for a path and a text, what goes wrong
    when that text is written to that path once the file is open. *)
Record world := World {
  fs : fsys;                                (* the file system *)
  clock : nat -> Q;                         (* successive [time.time()] values *)
  ticks : nat;                              (* how many were read so far *)
  service : nat -> string -> exn + response; (* the n-th service call, on a text *)
  calls : nat;                              (* how many calls were made so far *)
  credentials : bool;                       (* can the client be constructed *)
  console : list event;                     (* what was printed, oldest first *)
  faults : path -> string -> fault          (* what goes wrong in writing a text *)
}.

Definition set_fs (f : fsys) (w : world) : world :=
  World f (clock w) (ticks w) (service w) (calls w) (credentials w) (console w)
    (faults w).
Definition set_ticks (n : nat) (w : world) : world :=
  World (fs w) (clock w) n (service w) (calls w) (credentials w) (console w)
    (faults w).
Definition set_calls (n : nat) (w : world) : world :=
  World (fs w) (clock w) (ticks w) (service w) n (credentials w) (console w)
    (faults w).
Definition set_console (l : list event) (w : world) : world :=
  World (fs w) (clock w) (ticks w) (service w) (calls w) (credentials w) l
    (faults w).
Definition set_service (s : nat -> string -> exn + response) (w : world) : world :=
  World (fs w) (clock w) (ticks w) s (calls w) (credentials w) (console w)
    (faults w).

(** ** Computations: state passing with exceptions *)

Inductive outcome (A : Type) :=
| Ret (a : A)
| Raise (e : exn).
Arguments Ret {A} a.
Arguments Raise {A} e.

Definition M (A : Type) : Type := world -> outcome A * world.

Definition ret {A} (a : A) : M A := fun w => (Ret a, w).

Definition raise {A} (e : exn) : M A := fun w => (Raise e, w).

Definition bind {A B} (m : M A) (k : A -> M B) : M B :=
  fun w =>
    match m w with
    | (Ret a, w') => k a w'
    | (Raise e, w') => (Raise e, w')
    end.

(** [try: m except Exception as e: ...]: the exception becomes a value. *)
Definition try_except {A} (m : M A) : M (exn + A) :=
  fun w =>
    match m w with
    | (Ret a, w') => (Ret (inr a), w')
    | (Raise e, w') => (Ret (inl e), w')
    end.

Declare Scope py_scope.
Delimit Scope py_scope with py.
Notation "x <- c ;; k" := (bind c (fun x => k))
  (at level 100, c at next level, right associativity) : py_scope.
Notation "c ;; k" := (bind c (fun _ => k))
  (at level 100, right associativity) : py_scope.
Open Scope py_scope.

(** [for x in l: s = body x s] *)
Fixpoint for_each {A S} (l : list A) (body : A -> S -> M S) (s : S) : M S :=
  match l with
  | [] => ret s
  | x :: l' => s' <- body x s ;; for_each l' body s'
  end.

(** *** The primitives *)

Definition print (e : event) : M unit :=
  fun w => (Ret tt, set_console (console w ++ [e]) w).

Definition time_time : M Q :=
  fun w => (Ret (clock w (ticks w)), set_ticks (S (ticks w)) w).

Definition get_fs : M fsys := fun w => (Ret (fs w), w).

Definition os_path_exists (p : path) : M bool :=
  fun w => (Ret (exists_ (fs w) p), w).

Definition os_listdir (d : path) : M (list string) :=
  fun w => if isdir (fs w) d then (Ret (entries (fs w) d), w) else (Raise OSError, w).

Definition os_makedirs (p : path) : M unit :=
  fun w =>
    match makedirs p (fs w) with
    | Some fs' => (Ret tt, set_fs fs' w)
    | None => (Raise OSError, w)
    end.

Definition read_text (p : path) : M string :=
  fun w =>
    match stat (fs w) p with
    | Some (File (Some s)) => (Ret s, w)
    | Some (File None) => (Raise UnicodeDecodeError, w)
    | _ => (Raise OSError, w)
    end.

Definition write_text (p : path) (s : string) : M unit :=
  fun w =>
    match write_outcome (faults w p s) p s (fs w) with
    | (None, fs') => (Ret tt, set_fs fs' w)
    | (Some e, fs') => (Raise e, set_fs fs' w)
    end.

(** [OpenAI(api_key=..., base_url=...)] *)
Definition OpenAI : M unit :=
  fun w => if credentials w then (Ret tt, w) else (Raise OpenAIError, w).

(** [client.chat.completions.create(...)] with the fixed model, system
    prompt and temperature and [raw_text] as the user message. *)
Definition chat_completions_create (raw_text : string) : M response :=
  fun w =>
    let w' := set_calls (S (calls w)) w in
    match service w (calls w) raw_text with
    | inr r => (Ret r, w')
    | inl e => (Raise e, w')
    end.

(** [response.choices[0].message.content] *)
Definition first_content (r : response) : M (option string) :=
  match r with
  | c :: _ => ret c
  | [] => raise IndexError
  end.

(** [a / b] *)
Definition truediv (a b : Q) : M Q :=
  if Qeq_bool b 0 then raise ZeroDivisionError else ret (a / b)%Q.

Definition of_int (n : nat) : Q := inject_Z (Z.of_nat n).

(** ** The program *)

Definition ROOT_SOURCE_FOLDER : path := ["part2"].
Definition ROOT_OUTPUT_FOLDER : path := ["cleaned_txt_part2"].

(** Lines 20-37. *)
Definition clean_single_text (raw_text : string) : M (option string * Q) :=
  r <- try_except
         (api_start_time <- time_time ;;
          response <- chat_completions_create raw_text ;;
          t <- time_time ;;
          let api_elapsed := (t - api_start_time)%Q in
          content <- first_content response ;;
          ret (content, api_elapsed)) ;;
  match r with
  | inr result => ret result
  | inl e => print (EvApiError e) ;; ret (None, 0%Q)
  end.

(** The counters a directory run carries from file to file:
    [success_count], [skip_count], [total_api_time]. *)
Definition counters : Type := nat * nat * Q.

(** Lines 60-96: the body of the loop over [txt_files]. *)
Definition process_file (source_dir output_dir : path) (filename : string)
    (acc : counters) : M counters :=
  let '(success_count, skip_count, total_api_time) := acc in
  file_start_time <- time_time ;;
  print (EvProcessing filename) ;;
  let input_path := os_path_join source_dir filename in
  r <- try_except (read_text input_path) ;;
  match r with
  | inl e =>
      print (EvReadFailed e) ;;
      ret (success_count, skip_count, total_api_time)
  | inr raw_content =>
      if negb (truthy (strip raw_content)) then
        print EvSkipEmpty ;;
        ret (success_count, S skip_count, total_api_time)
      else
        cleaned <- clean_single_text raw_content ;;
        let cleaned_content := fst cleaned in
        let api_time := snd cleaned in
        let total_api_time := (total_api_time + api_time)%Q in
        t <- time_time ;;
        let file_elapsed := (t - file_start_time)%Q in
        match cleaned_content with
        | Some text =>
            let output_filename := "cleaned_" +:+ filename in
            let output_path := os_path_join output_dir output_filename in
            w <- try_except (write_text output_path text) ;;
            match w with
            | inr _ =>
                print (EvSuccess file_elapsed api_time) ;;
                ret (S success_count, skip_count, total_api_time)
            | inl e =>
                print (EvWriteFailed e) ;;
                ret (success_count, skip_count, total_api_time)
            end
        | None =>
            print EvNoResult ;;
            ret (success_count, skip_count, total_api_time)
        end
  end.

(** Lines 43-44: the [.txt] entries of [source_dir] that are regular files. *)
Definition txt_files_of (fs : fsys) (source_dir : path) (names : list string)
    : list string :=
  List.filter
    (fun f => endswith f ".txt" && isfile fs (os_path_join source_dir f))
    names.

(** Lines 40-98. *)
Definition process_directory (source_dir output_dir : path)
    : M (nat * nat * nat * Q) :=
  names <- os_listdir source_dir ;;
  now <- get_fs ;;
  let txt_files := txt_files_of now source_dir names in
  match txt_files with
  | [] =>
      print (EvNoTxt (os_path_basename source_dir)) ;;
      ret (0, 0, 0, 0%Q)
  | _ =>
      print (EvDirFound (os_path_basename source_dir) (length txt_files)) ;;
      os_makedirs output_dir ;;
      acc <- for_each txt_files (process_file source_dir output_dir)
               (0, 0, 0%Q) ;;
      let '(success_count, skip_count, total_api_time) := acc in
      ret (success_count, skip_count, length txt_files, total_api_time)
  end.

(** The entry of [dir_results] for one directory (lines 150-157). *)
Record dir_result := DirResult {
  r_name : string;
  r_success : nat;
  r_skip : nat;
  r_total : nat;
  r_time : Q;
  r_api_time : Q
}.

(** The running totals of lines 128-132. *)
Record totals := Totals {
  total_success : nat;
  total_skip : nat;
  total_files : nat;
  total_api_time : Q;
  dir_results : list dir_result
}.

(** [dir_name if dir_name else '根目录']; the label of the root, a fixed
    piece of text, is written in ASCII here. *)
Definition unit_label (dir_name : string) : string :=
  if truthy dir_name then dir_name else "(root)".

(** Lines 114-117: the entries of the root that are directories. *)
Definition subdirs_of (fs : fsys) (root : path) (items : list string)
    : list (string * path) :=
  omap
    (fun item =>
       let item_path := os_path_join root item in
       if isdir fs item_path then Some (item, item_path) else None)
    items.

(** Lines 136-165: the body of the loop over [all_dirs]. *)
Definition process_unit (unit : string * path) (acc : totals) : M totals :=
  let '(dir_name, source_dir) := unit in
  print (EvUnit (unit_label dir_name)) ;;
  let output_dir :=
    if truthy dir_name then os_path_join ROOT_OUTPUT_FOLDER dir_name
    else ROOT_OUTPUT_FOLDER in
  dir_start_time <- time_time ;;
  stats <- process_directory source_dir output_dir ;;
  let '(success, skip, file_count, api_time) := stats in
  t <- time_time ;;
  let dir_elapsed := (t - dir_start_time)%Q in
  print (EvUnitDone success file_count skip dir_elapsed) ;;
  ret (Totals (total_success acc + success)
              (total_skip acc + skip)
              (total_files acc + file_count)
              (total_api_time acc + api_time)%Q
              (dir_results acc ++
                 [DirResult (unit_label dir_name) success skip file_count
                            dir_elapsed api_time])).

(** Lines 175-181: one line of the per-directory table. *)
Definition report_dir (result : dir_result) (_ : unit) : M unit :=
  if Nat.ltb 0 (r_total result) then
    q <- truediv (of_int (r_success result)) (of_int (r_total result)) ;;
    let success_rate := (q * 100)%Q in
    print (EvDirRate (r_name result) (r_success result) (r_total result)
                     success_rate (r_time result))
  else
    print (EvDirNoFiles (r_name result)).

(** [a > b] on numbers. *)
Definition gt (a b : Q) : bool := negb (Qle_bool a b).

(** Lines 169-205: the report. *)
Definition report (sums : totals) (total_elapsed : Q) : M unit :=
  print EvRule ;;
  print (EvHeading "report") ;;
  print (EvHeading "directories") ;;
  print EvRule ;;
  for_each (dir_results sums) report_dir tt ;;
  print (EvHeading "summary") ;;
  print EvRule ;;
  print (EvTotalDirs (length (dir_results sums))) ;;
  print (EvTotalFiles (total_files sums)) ;;
  print (EvTotalSuccess (total_success sums)) ;;
  print (EvTotalSkip (total_skip sums)) ;;
  (if Nat.ltb 0 (total_success sums) then
     a <- truediv total_elapsed (of_int (total_success sums)) ;;
     print (EvAvgFile a) ;;
     b <- truediv (total_api_time sums) (of_int (total_success sums)) ;;
     print (EvAvgApi b) ;;
     if gt (total_api_time sums) 0 then
       q <- truediv (total_api_time sums) total_elapsed ;;
       let api_ratio := (q * 100)%Q in
       print (EvApiRatio api_ratio)
     else ret tt
   else ret tt) ;;
  print (EvTotalElapsed total_elapsed) ;;
  (if gt total_elapsed 60 then
     let minutes := Qfloor (total_elapsed / 60) in
     let seconds := (total_elapsed - 60 * inject_Z minutes)%Q in
     print (EvMinutes minutes seconds)
   else ret tt) ;;
  print (EvSavedTo ROOT_OUTPUT_FOLDER).

(** Lines 101-205. *)
Definition process_root_directory : M unit :=
  found <- os_path_exists ROOT_SOURCE_FOLDER ;;
  if negb found then
    print EvRootMissing
  else
    print EvStart ;;
    print EvRule ;;
    total_start_time <- time_time ;;
    items <- os_listdir ROOT_SOURCE_FOLDER ;;
    now <- get_fs ;;
    let all_dirs := subdirs_of now ROOT_SOURCE_FOLDER items in
    all_dirs <-
      match all_dirs with
      | [] => print EvNoSubdirs ;; ret [("", ROOT_SOURCE_FOLDER)]
      | _ => ret all_dirs
      end ;;
    print (EvUnits (length all_dirs)) ;;
    print EvRule ;;
    sums <- for_each all_dirs process_unit (Totals 0 0 0 0%Q []) ;;
    t <- time_time ;;
    let total_elapsed := (t - total_start_time)%Q in
    report sums total_elapsed.

(** Lines 6-13, run when the module is loaded. *)
Definition module_body : M unit :=
  OpenAI ;;
  os_makedirs ROOT_OUTPUT_FOLDER.

(** The script: the module body, then lines 208-209. *)
Definition main : M unit :=
  module_body ;;
  process_root_directory.

(** The exit status of the interpreter: 0 when the script runs to its
    end, 1 when an exception is left uncaught. *)
Definition exit_status {A} (r : outcome A) : Z :=
  match r with
  | Ret _ => 0%Z
  | Raise _ => 1%Z
  end.

(** ** Notions used to state the properties *)

(** The duration [clean_single_text] measures when it is entered in [w]. *)
Definition measured (w : world) : Q :=
  (clock w (S (ticks w)) - clock w (ticks w))%Q.

(** What [clean_single_text] returns, read off the reply of the service. *)
Definition cleaned_of (reply : exn + response) (elapsed : Q)
    : option string * Q :=
  match reply with
  | inr (content :: _) => (content, elapsed)
  | inr [] => (None, 0%Q)
  | inl _ => (None, 0%Q)
  end.

(** How a file ended, as the console shows it (durations left out). *)
Inductive verdict :=
| Succeeded
| SkippedEmpty
| ReadFailed (e : exn)
| WriteFailed (e : exn)
| NoResult.

#[global] Instance exn_eq_dec : EqDecision exn.
Proof. solve_decision. Defined.
#[global] Instance verdict_eq_dec : EqDecision verdict.
Proof. solve_decision. Defined.

Definition verdict_of (e : event) : option verdict :=
  match e with
  | EvSuccess _ _ => Some Succeeded
  | EvSkipEmpty => Some SkippedEmpty
  | EvReadFailed x => Some (ReadFailed x)
  | EvWriteFailed x => Some (WriteFailed x)
  | EvNoResult => Some NoResult
  | _ => None
  end.

(** The verdicts among the events [E], oldest first. *)
Definition verdicts (E : list event) : list verdict := omap verdict_of E.

(** The events printed between world [w] and the later world [w']. *)
Definition printed (w w' : world) : list event :=
  drop (length (console w)) (console w').

Definition count (v : verdict) (l : list verdict) : nat :=
  length (List.filter (fun x => bool_decide (x = v)) l).

Definition is_failure (v : verdict) : bool :=
  match v with
  | ReadFailed _ | WriteFailed _ | NoResult => true
  | _ => false
  end.

Definition output_path_of (output_dir : path) (filename : string) : path :=
  os_path_join output_dir ("cleaned_" +:+ filename).

(** ** Sample worlds *)

(** A source tree with two subdirectories; [alpha] holds a text file, a
    blank text file and a file of another kind. *)
Definition sample_fs : fsys :=
  list_to_map
    [ (["part2"], Dir);
      (["part2"; "alpha"], Dir);
      (["part2"; "alpha"; "a.txt"], File (Some "hello"));
      (["part2"; "alpha"; "b.txt"], File (Some "  "));
      (["part2"; "alpha"; "c.md"], File (Some "notes"));
      (["part2"; "beta"], Dir);
      (["part2"; "beta"; "z.txt"], File (Some "zz")) ].

(** Every write that can be opened goes through. *)
Definition no_faults (p : path) (s : string) : fault := None.

(** One second passes between two readings of the clock. *)
Definition sample_clock (n : nat) : Q := of_int n.

(** A service that answers every call. *)
Definition echo_service (n : nat) (text : string) : exn + response :=
  inr [Some ("clean:" +:+ text)].

Definition sample_world : world :=
  World sample_fs sample_clock 0 echo_service 0 true [] no_faults.

(** Loose files in the root, and a directory in the place where the
    output of [a.txt] should go. *)
Definition blocked_fs : fsys :=
  list_to_map
    [ (["part2"], Dir);
      (["part2"; "a.txt"], File (Some "hello"));
      (["cleaned_txt_part2"], Dir);
      (["cleaned_txt_part2"; "cleaned_a.txt"], Dir) ].

Definition blocked_world : world :=
  World blocked_fs sample_clock 0 echo_service 0 true [] no_faults.

(** A disk that takes two characters of any text and is full then. *)
Definition full_disk (p : path) (s : string) : fault := Some (OSError, 2).

(** A service whose replies carry no content. *)
Definition silent_service (n : nat) (text : string) : exn + response :=
  inr [None].

(** No [./part2] at all. *)
Definition empty_world : world :=
  World ∅ sample_clock 0 echo_service 0 true [] no_faults.

(** ** The report, line by line *)

(** The line of the table for one directory. *)
Definition dir_line (r : dir_result) : event :=
  if Nat.ltb 0 (r_total r) then
    EvDirRate (r_name r) (r_success r) (r_total r)
      (of_int (r_success r) / of_int (r_total r) * 100)%Q (r_time r)
  else EvDirNoFiles (r_name r).

(** The lines with the averages and the share of the service time. *)
Definition rate_lines (sums : totals) (total_elapsed : Q) : list event :=
  if Nat.ltb 0 (total_success sums) then
    [EvAvgFile (total_elapsed / of_int (total_success sums))%Q;
     EvAvgApi (total_api_time sums / of_int (total_success sums))%Q]
    ++ (if gt (total_api_time sums) 0 then
          [EvApiRatio (total_api_time sums / total_elapsed * 100)%Q]
        else [])
  else [].

Definition minutes_line (total_elapsed : Q) : list event :=
  if gt total_elapsed 60 then
    [EvMinutes (Qfloor (total_elapsed / 60))
       (total_elapsed - 60 * inject_Z (Qfloor (total_elapsed / 60)))%Q]
  else [].

Definition report_lines (sums : totals) (total_elapsed : Q) : list event :=
  [EvRule; EvHeading "report"; EvHeading "directories"; EvRule]
  ++ List.map dir_line (dir_results sums)
  ++ [EvHeading "summary"; EvRule;
      EvTotalDirs (length (dir_results sums));
      EvTotalFiles (total_files sums);
      EvTotalSuccess (total_success sums);
      EvTotalSkip (total_skip sums)]
  ++ rate_lines sums total_elapsed
  ++ [EvTotalElapsed total_elapsed]
  ++ minutes_line total_elapsed
  ++ [EvSavedTo ROOT_OUTPUT_FOLDER].

(** The totals with which the run in [blocked_world] reaches its report:
    one file, transformed in one second and then not written. *)
Definition blocked_sums : totals :=
  Totals 0 0 1 (0 + (0 + (sample_clock 4 - sample_clock 3)))%Q
    [DirResult "(root)" 0 0 1 (sample_clock 6 - sample_clock 1)%Q
       (0 + (sample_clock 4 - sample_clock 3))%Q].

(** The time that run takes from line 110 to line 167. *)
Definition blocked_elapsed : Q := (sample_clock 7 - sample_clock 0)%Q.

(** Totals of a run with two successes in two directories. *)
Definition sample_sums : totals :=
  Totals 2 1 3 2%Q
    [DirResult "beta" 1 0 1 5%Q 1%Q; DirResult "alpha" 1 1 2 6%Q 1%Q].

(** ** Two runs that differ in one service call *)

(** The service of a run in which call number [idx] is made to fail. *)
Definition inject_failure (idx : nat) (svc : nat -> string -> exn + response)
    : nat -> string -> exn + response :=
  fun n text => if Nat.eqb n idx then inl (APIError "injected") else svc n text.

(** Two file systems that hold the same everywhere but at [tgt], and that
    agree on whether [tgt] is a directory. *)
Definition agree_off (tgt : path) (m1 m2 : fsys) : Prop :=
  (forall q, q <> tgt -> m1 !! q = m2 !! q) /\ isdir m1 tgt = isdir m2 tgt.

(** The worlds of the run with the failure injected ([wA]) and of the run
    without ([wB]), at the same point of the loop. *)
Definition sim (idx : nat) (tgt : path) (wA wB : world) : Prop :=
  service wA = inject_failure idx (service wB)
  /\ calls wA = calls wB
  /\ faults wA = faults wB
  /\ agree_off tgt (fs wA) (fs wB).

(** A service that fails on its second call, and a directory of three
    files to run it on. *)
Definition three_fs : fsys :=
  list_to_map
    [ (["in"], Dir);
      (["in"; "a.txt"], File (Some "first"));
      (["in"; "b.txt"], File (Some "second"));
      (["in"; "c.txt"], File (Some "third"));
      (["out"], Dir) ].

Definition three_world : world :=
  World three_fs sample_clock 0 echo_service 0 true [] no_faults.

(** The three files on the full disk, and with the silent service. *)
Definition full_world : world :=
  World three_fs sample_clock 0 echo_service 0 true [] full_disk.

Definition silent_world : world :=
  World three_fs sample_clock 0 silent_service 0 true [] no_faults.

(** ** Notions for the properties of the whole run *)

(** The file names the loop announces among the events [E]. *)
Definition announced (E : list event) : list string :=
  omap (fun e => match e with EvProcessing f => Some f | _ => None end) E.

(** The verdicts of the files that were sent to the service. *)
Definition sent (v : verdict) : bool :=
  match v with
  | Succeeded | WriteFailed _ | NoResult => true
  | SkippedEmpty | ReadFailed _ => false
  end.

(** A service that is down, and the world of three files with it. *)
Definition failing_service (n : nat) (text : string) : exn + response :=
  inl (APIError "down").

Definition down_world : world :=
  World three_fs sample_clock 0 failing_service 0 true [] no_faults.

(** What happened to the file system between [m] and [m']: every path
    holds what it held, or is a directory made where nothing was (at a path
    in [D]), or is a text stored where no directory was (at a path in [F]). *)
Definition evolves (D F : path -> Prop) (m m' : fsys) : Prop :=
  forall q,
    m' !! q = m !! q
    \/ (D q /\ m !! q = None /\ m' !! q = Some Dir)
    \/ (F q /\ m !! q <> Some Dir /\ exists s, m' !! q = Some (File (Some s))).

(** The places where [process_directory] may make a directory, and where
    it may store a text. *)
Definition along (out : path) (q : path) : Prop := q <> [] /\ q `prefix_of` out.

Definition cleaned_in (out : path) (files : list string) (q : path) : Prop :=
  exists f, f ∈ files /\ q = output_path_of out f.

Definition nowhere (q : path) : Prop := False.

(** The directories and the files of the output tree: the output root and
    what is directly inside, and the cleaned files one or two levels down. *)
Definition output_dirs (q : path) : Prop :=
  q = ROOT_OUTPUT_FOLDER \/ exists d, q = os_path_join ROOT_OUTPUT_FOLDER d.

Definition output_files (q : path) : Prop :=
  (exists f, q = output_path_of ROOT_OUTPUT_FOLDER f)
  \/ exists d f, q = output_path_of (os_path_join ROOT_OUTPUT_FOLDER d) f.

(** The sum of a count over the directory results, and the sum of their
    service times. *)
Definition sum_of (f : dir_result -> nat) (rs : list dir_result) : nat :=
  list_sum (List.map f rs).

Definition api_sum (rs : list dir_result) : Q :=
  fold_right Qplus 0%Q (List.map r_api_time rs).

(** Totals that are the sums of their directory results, each of which
    counts no more successes and skips than files. *)
Definition tallied (t : totals) : Prop :=
  total_success t = sum_of r_success (dir_results t)
  /\ total_skip t = sum_of r_skip (dir_results t)
  /\ total_files t = sum_of r_total (dir_results t)
  /\ (total_api_time t == api_sum (dir_results t))%Q
  /\ Forall (fun r => r_success r + r_skip r <= r_total r) (dir_results t).

(** The output directory that line 139-142 give to a unit. *)
Definition output_dir_of (dir_name : string) : path :=
  if truthy dir_name then os_path_join ROOT_OUTPUT_FOLDER dir_name
  else ROOT_OUTPUT_FOLDER.

(** A tree in which a regular file sits where the output directory of
    [alpha] should be made. *)
Definition clash_fs : fsys :=
  list_to_map
    [ (["part2"], Dir);
      (["part2"; "alpha"], Dir);
      (["part2"; "alpha"; "a.txt"], File (Some "hello"));
      (["part2"; "beta"], Dir);
      (["part2"; "beta"; "z.txt"], File (Some "zz"));
      (["cleaned_txt_part2"], Dir);
      (["cleaned_txt_part2"; "alpha"], File (Some "in the way")) ].

Definition clash_world : world :=
  World clash_fs sample_clock 0 echo_service 0 true [] no_faults.

(** A tree in which [part2] is a regular file. *)
Definition flat_world : world :=
  World (list_to_map [ (["part2"], File (Some "not a directory")) ])
    sample_clock 0 echo_service 0 true [] no_faults.

(** The two units of the sample tree, in the order of its listing. *)
Definition sample_units : list (string * path) :=
  [("beta", ["part2"; "beta"]); ("alpha", ["part2"; "alpha"])].

(** The totals a run over [units] ends with (none, if it raises). *)
Definition totals_of (units : list (string * path)) (w : world) : totals :=
  match fst (for_each units process_unit (Totals 0 0 0 0%Q []) w) with
  | Ret sums => sums
  | Raise _ => Totals 0 0 0 0%Q []
  end.

(** A clock that never goes backwards, and the reading it gives next. *)
Definition steady (w : world) : Prop :=
  forall i j, i <= j -> (clock w i <= clock w j)%Q.

Definition next (w : world) : Q := clock w (ticks w).

(** An eligible file [f] of [src] in the file system [m], and the places
    where a run over [units] started from [m] may store a text. *)
Definition eligible (m : fsys) (src : path) (f : string) : Prop :=
  endswith f ".txt" = true
  /\ exists content, m !! os_path_join src f = Some (File content).

Definition mirrored (m : fsys) (units : list (string * path)) (q : path)
    : Prop :=
  exists d src f,
    (d, src) ∈ units /\ eligible m src f
    /\ q = output_path_of (output_dir_of d) f.

(** Two file systems that hold the same outside the output root. *)
Definition outside_output (m m' : fsys) : Prop :=
  forall q, ~ ROOT_OUTPUT_FOLDER `prefix_of` q -> m' !! q = m !! q.
(** * Properties *)

(** ** White space *)

Lemma lstrip_blank s : blank s = true -> lstrip s = "".
Proof.
  induction s as [|c s IH]; simpl; [done|].
  intros [Hc Hs]%andb_prop. rewrite Hc. auto.
Qed.

Lemma lstrip_not_blank s :
  blank s = false -> exists c r, lstrip s = String c r /\ is_space c = false.
Proof.
  induction s as [|c s IH]; simpl; [done|].
  destruct (is_space c) eqn:Hc; simpl; eauto.
Qed.

Lemma rstrip_head c r : is_space c = false -> rstrip (String c r) <> "".
Proof. simpl. intros ->. by destruct (rstrip r). Qed.

(** [not s.strip()] holds exactly for the strings made of white space. *)
Lemma strip_blank s : negb (truthy (strip s)) = blank s.
Proof.
  unfold strip. destruct (blank s) eqn:Hb.
  - by rewrite (lstrip_blank _ Hb).
  - destruct (lstrip_not_blank _ Hb) as (c & r & -> & Hc).
    pose proof (rstrip_head c r Hc). by destruct (rstrip (String c r)).
Qed.

(** ** Running a computation *)

Ltac run :=
  unfold bind, try_except, ret, raise, print, time_time, get_fs,
    read_text, write_text, chat_completions_create, first_content; simpl.

Lemma for_each_cons {A S} (x : A) l (body : A -> S -> M S) s w :
  for_each (x :: l) body s w =
  match body x s w with
  | (Ret s', w') => for_each l body s' w'
  | (Raise e, w') => (Raise e, w')
  end.
Proof. reflexivity. Qed.

Lemma for_each_app {A S} (l1 l2 : list A) (body : A -> S -> M S) s w :
  for_each (l1 ++ l2) body s w =
  match for_each l1 body s w with
  | (Ret s', w') => for_each l2 body s' w'
  | (Raise e, w') => (Raise e, w')
  end.
Proof.
  revert s w. induction l1 as [|x l1 IH]; intros s w; simpl; [done|].
  unfold bind. destruct (body x s w) as [[s'|e] w']; auto.
Qed.

(** ** The transformer *)


Lemma clean_single_text_run raw w :
  exists w',
    clean_single_text raw w
      = (Ret (cleaned_of (service w (calls w) raw) (measured w)), w')
    /\ fs w' = fs w /\ calls w' = S (calls w)
    /\ service w' = service w /\ clock w' = clock w
    /\ credentials w' = credentials w
    /\ ticks w <= ticks w'
    /\ exists E, console w' = console w ++ E
         /\ forall e, e ∈ E -> exists x, e = EvApiError x.
Proof.
  unfold clean_single_text, measured. run.
  destruct (service w (calls w) raw) as [e|[|c r]]; simpl;
    eexists; (split; [reflexivity|]); simpl;
    repeat (split; [done || lia|]).
  - exists [EvApiError e]. split; [done|]. intros ? ->%list_elem_of_singleton. eauto.
  - exists [EvApiError IndexError]. split; [done|].
    intros ? ->%list_elem_of_singleton. eauto.
  - exists []. split; [by rewrite app_nil_r|]. intros ? []%elem_of_nil.
Qed.

Lemma clean_single_text_faults raw w :
  faults (snd (clean_single_text raw w)) = faults w.
Proof.
  unfold clean_single_text. run.
  by destruct (service w (calls w) raw) as [e|[|c r]].
Qed.

(** ** One file *)


Lemma verdicts_app E1 E2 : verdicts (E1 ++ E2) = verdicts E1 ++ verdicts E2.
Proof. apply omap_app. Qed.

Lemma verdicts_api_errors E :
  (forall e, e ∈ E -> exists x, e = EvApiError x) -> verdicts E = [].
Proof.
  induction E as [|e E IH]; intros H; [done|].
  destruct (H e) as [x ->]; [left|]. simpl. apply IH.
  intros e' He'. apply H. by right.
Qed.

Ltac step_done :=
  split_and!;
  try (match goal with |- _ = (Ret _, _) => reflexivity end);
  try (simpl; rewrite <- ?app_assoc; reflexivity);
  try done.

Ltac step_facts :=
  match goal with
  | Hcon : console ?w2 = console ?w1 ++ _ |- console _ = _ =>
      simpl; rewrite Hcon; subst w1; simpl; by rewrite <- !app_assoc
  | Hv : forall e, verdicts _ = verdicts [e] |- verdicts _ = _ => by rewrite Hv
  | H : calls ?w2 = _ |- calls _ = _ => simpl; by rewrite H
  | H : service ?w2 = _ |- service _ = _ => simpl; by rewrite H
  | H : clock ?w2 = _ |- clock _ = _ => simpl; by rewrite H
  | H : credentials ?w2 = _ |- credentials _ = _ => simpl; by rewrite H
  | H : fs ?w2 = _ |- fs _ = _ => simpl; by rewrite ?H
  end.

(** The run of the loop body on one file, case by case. *)
Lemma process_file_run src out f s k t w :
  exists w' E,
    console w' = console w ++ E /\ service w' = service w
    /\ clock w' = clock w /\ credentials w' = credentials w /\
    match stat (fs w) (os_path_join src f) with
    | Some (File (Some raw)) =>
        if blank raw then
          process_file src out f (s, k, t) w = (Ret (s, S k, t), w')
          /\ fs w' = fs w /\ calls w' = calls w
          /\ verdicts E = [SkippedEmpty]
        else
          let c := cleaned_of (service w (calls w) raw)
                     (measured (set_ticks (S (ticks w)) w)) in
          calls w' = S (calls w) /\
          match fst c with
          | Some text =>
              match write_outcome (faults w (output_path_of out f) text)
                      (output_path_of out f) text (fs w) with
              | (None, fs') =>
                  process_file src out f (s, k, t) w
                    = (Ret (S s, k, (t + snd c)%Q), w')
                  /\ fs w' = fs' /\ verdicts E = [Succeeded]
              | (Some e, fs') =>
                  process_file src out f (s, k, t) w
                    = (Ret (s, k, (t + snd c)%Q), w')
                  /\ fs w' = fs' /\ verdicts E = [WriteFailed e]
              end
          | None =>
              process_file src out f (s, k, t) w
                = (Ret (s, k, (t + snd c)%Q), w')
              /\ fs w' = fs w /\ verdicts E = [NoResult]
          end
    | Some (File None) =>
        process_file src out f (s, k, t) w = (Ret (s, k, t), w')
        /\ fs w' = fs w /\ calls w' = calls w
        /\ verdicts E = [ReadFailed UnicodeDecodeError]
    | _ =>
        process_file src out f (s, k, t) w = (Ret (s, k, t), w')
        /\ fs w' = fs w /\ calls w' = calls w
        /\ verdicts E = [ReadFailed OSError]
    end.
Proof.
  unfold process_file, output_path_of. run.
  destruct (stat (fs w) (os_path_join src f)) as [[|[raw|]]|] eqn:Hst; simpl.
  1,3,4: eexists _, [_; _]; step_done.
  rewrite strip_blank. destruct (blank raw) eqn:Hb; simpl.
  { eexists _, [_; _]; step_done. }
  set (w1 := set_console _ _).
  destruct (clean_single_text_run raw w1)
    as (w2 & Hrun & Hfs & Hcalls & Hsvc & Hclk & Hcred & _ & E & Hcon & HE).
  rewrite Hrun. simpl.
  change (service w1 (calls w1) raw) with (service w (calls w) raw) in *.
  change (measured w1) with (measured (set_ticks (S (ticks w)) w)) in *.
  set (c := cleaned_of _ _) in *.
  assert (Hv : forall e, verdicts (EvProcessing f :: E ++ [e]) = verdicts [e]).
  { intros e. change (verdicts (EvProcessing f :: E ++ [e]))
      with (verdicts (E ++ [e])).
    by rewrite verdicts_app, (verdicts_api_errors E HE). }
  destruct (fst c) as [text|] eqn:Hc; simpl.
  - pose proof (clean_single_text_faults raw w1) as Hflt.
    rewrite Hrun in Hflt. simpl in Hflt.
    rewrite Hfs, Hflt. change (fs w1) with (fs w).
    destruct (write_outcome _ _ text (fs w)) as [[e|] fs'] eqn:Hw; simpl;
      eexists _, (EvProcessing f :: E ++ [_]); step_done; step_facts.
  - eexists _, (EvProcessing f :: E ++ [_]); step_done; step_facts.
Qed.

Lemma process_file_faults src out f acc w :
  faults (snd (process_file src out f acc w)) = faults w.
Proof.
  destruct acc as [[s k] t]. unfold process_file. run.
  destruct (stat (fs w) (os_path_join src f)) as [[|[raw|]]|]; simpl; try done.
  destruct (negb _); simpl; [done|].
  set (w1 := set_console _ _).
  pose proof (clean_single_text_faults raw w1) as Hflt.
  destruct (clean_single_text raw w1) as [[c|e] w2]; simpl in *; [|done].
  destruct (fst c) as [text|]; simpl; [|done].
  by destruct (write_outcome _ _ _ _) as [[?|] ?].
Qed.

(** How lines 89-90 can end. *)
Lemma write_outcome_cases (flt : fault) (p : path) (s : string) (m : fsys)
    (r : option exn) (m' : fsys) :
  write_outcome flt p s m = (r, m') ->
  m' = m /\ r = Some OSError
  \/ p <> [] /\ isdir m (removelast p) = true /\ isdir m p = false
     /\ match flt with
        | None => r = None /\ m' = <[p := File (Some s)]> m
        | Some (e, n) =>
            r = Some e /\ m' = <[p := File (Some (substring 0 n s))]> m
        end.
Proof.
  unfold write_outcome, open_w.
  destruct p as [|x p]; [intros [= <- <-]; by left|].
  destruct (isdir m (removelast (x :: p))) eqn:Hd;
    [destruct (isdir m (x :: p)) eqn:Hp|]; simpl;
    try (intros [= <- <-]; by left).
  destruct flt as [[e n]|]; intros [= <- <-]; right;
    by rewrite insert_insert_eq.
Qed.

Lemma write_outcome_stored (flt : fault) (p : path) (s : string) (m : fsys)
    (r : option exn) (m' : fsys) :
  write_outcome flt p s m = (r, m') ->
  m' = m
  \/ p <> [] /\ isdir m p = false
     /\ exists s', m' = <[p := File (Some s')]> m.
Proof.
  intros [[-> _]|(Hnil & _ & Hnd & H)]%write_outcome_cases; [by left|].
  right. destruct flt as [[e n]|]; destruct H as [_ ->]; eauto.
Qed.

Lemma write_outcome_failed (flt : fault) (p : path) (s : string) (m : fsys)
    (e : exn) (m' : fsys) :
  write_outcome flt p s m = (Some e, m') ->
  m' = m \/ exists n, m' = <[p := File (Some (substring 0 n s))]> m.
Proof.
  intros [[-> _]|(_ & _ & _ & H)]%write_outcome_cases; [by left|].
  right. destruct flt as [[e' n]|]; destruct H as [? ->]; [eauto|done].
Qed.

#[global] Arguments for_each : simpl never.
#[global] Arguments process_file : simpl never.
#[global] Arguments clean_single_text : simpl never.

Lemma printed_app w w' E : console w' = console w ++ E -> printed w w' = E.
Proof. unfold printed. intros ->. by rewrite drop_app_length. Qed.

Ltac eval_count :=
  repeat match goal with
  | |- context [count ?v ?l] =>
      let r := eval vm_compute in (count v l) in change (count v l) with r
  end.

(** The loop body never raises, prints one verdict and moves the counters
    by that verdict. *)
Lemma process_file_step src out f s k t w :
  exists s' k' t' w' v E,
    process_file src out f (s, k, t) w = (Ret (s', k', t'), w')
    /\ console w' = console w ++ E /\ verdicts E = [v]
    /\ s' = s + count Succeeded [v] /\ k' = k + count SkippedEmpty [v]
    /\ calls w <= calls w' <= S (calls w)
    /\ service w' = service w /\ clock w' = clock w
    /\ credentials w' = credentials w.
Proof.
  destruct (process_file_run src out f s k t w)
    as (w' & E & Hcon & Hsvc & Hclk & Hcred & H).
  destruct (stat (fs w) (os_path_join src f)) as [[|[raw|]]|].
  1,3,4: destruct H as (Hrun & _ & Hc & Hv);
    eexists _, _, _, _, _, E; split_and!; [exact Hrun|..];
    try done; eval_count; lia.
  destruct (blank raw).
  { destruct H as (Hrun & _ & Hc & Hv).
    eexists _, _, _, _, _, E; split_and!; [exact Hrun|..];
    try done; eval_count; lia. }
  simpl in H. destruct H as (Hc & H).
  destruct (fst _) as [text|]; [destruct (write_outcome _ _ _ _) as [[?|] ?]|];
    destruct H as (Hrun & _ & Hv);
    eexists _, _, _, _, _, E; split_and!; [exact Hrun|..];
    try done; eval_count; lia.
Qed.

(** ** One directory: the loop over [txt_files] *)

Lemma count_app v l1 l2 : count v (l1 ++ l2) = count v l1 + count v l2.
Proof. unfold count. by rewrite List.filter_app, length_app. Qed.

(** The loop never raises; it prints one verdict per file, in order, and
    the counters it returns count the verdicts. *)
Lemma files_run src out files s k t w :
  exists s' k' t' w' E,
    for_each files (process_file src out) (s, k, t) w = (Ret (s', k', t'), w')
    /\ console w' = console w ++ E
    /\ length (verdicts E) = length files
    /\ s' = s + count Succeeded (verdicts E)
    /\ k' = k + count SkippedEmpty (verdicts E)
    /\ calls w <= calls w'
    /\ service w' = service w /\ clock w' = clock w
    /\ credentials w' = credentials w.
Proof.
  revert s k t w. induction files as [|f files IH]; intros s k t w.
  - exists s, k, t, w, []. rewrite app_nil_r.
    split_and!; try done; unfold count; simpl; lia.
  - destruct (process_file_step src out f s k t w)
      as (s1 & k1 & t1 & w1 & v & E1 & Hrun & Hcon & Hv & Hs & Hk & Hc & Hsvc
          & Hclk & Hcred).
    destruct (IH s1 k1 t1 w1)
      as (s2 & k2 & t2 & w2 & E2 & Hrun2 & Hcon2 & Hlen & Hs2 & Hk2 & Hc2
          & Hsvc2 & Hclk2 & Hcred2).
    exists s2, k2, t2, w2, (E1 ++ E2).
    rewrite for_each_cons, Hrun, Hrun2, Hcon2, Hcon, app_assoc.
    rewrite verdicts_app, !count_app, length_app, Hv, Hlen.
    split_and!; try done; try congruence; simpl; lia.
Qed.

(** ** The claims about one file *)

(** C6: for every input text and every world, [clean_single_text] returns
    (no exception leaves it): when the service answers with a text, the
    result carries that text and the measured duration of the call; when
    the service call raises, or its reply has no choice, the result is the
    failure value [(None, 0)]. *)
Theorem clean_single_text_never_raises raw w :
  exists content elapsed w',
    clean_single_text raw w = (Ret (content, elapsed), w') /\
    match service w (calls w) raw with
    | inr (Some text :: _) => content = Some text /\ elapsed = measured w
    | inr (None :: _) => content = None /\ elapsed = measured w
    | inr [] => content = None /\ elapsed = 0%Q
    | inl _ => content = None /\ elapsed = 0%Q
    end.
Proof.
  destruct (clean_single_text_run raw w) as (w' & Hrun & _).
  destruct (service w (calls w) raw) as [e|[|[text|] more]] eqn:Hs;
    simpl in Hrun; eauto 6.
Qed.

(** C3: when the content read from an eligible file is empty or consists
    of white space only, the loop body adds one to [skip_count], leaves the
    other counters alone, makes no service call, writes nothing, and the
    loop goes on with the next file. *)
Theorem blank_file_is_skipped src out f rest s k t w raw :
  stat (fs w) (os_path_join src f) = Some (File (Some raw)) ->
  blank raw = true ->
  exists w',
    process_file src out f (s, k, t) w = (Ret (s, S k, t), w')
    /\ calls w' = calls w /\ fs w' = fs w
    /\ verdicts (printed w w') = [SkippedEmpty]
    /\ for_each (f :: rest) (process_file src out) (s, k, t) w
       = for_each rest (process_file src out) (s, S k, t) w'.
Proof.
  intros Hst Hb.
  destruct (process_file_run src out f s k t w) as (w' & E & Hcon & _ & _ & _ & H).
  rewrite Hst, Hb in H. destruct H as (Hrun & Hfs & Hcalls & Hv).
  exists w'. rewrite (printed_app _ _ _ Hcon). split_and!; try done.
  by rewrite for_each_cons, Hrun.
Qed.

Lemma blank_file_is_skipped_witness :
  exists w',
    process_file ["part2"; "alpha"] ["out"] "b.txt" (0, 0, 0%Q) sample_world
      = (Ret (0, 1, 0%Q), w')
    /\ calls w' = calls sample_world /\ fs w' = fs sample_world
    /\ verdicts (printed sample_world w') = [SkippedEmpty]
    /\ for_each ["b.txt"; "a.txt"] (process_file ["part2"; "alpha"] ["out"])
         (0, 0, 0%Q) sample_world
       = for_each ["a.txt"] (process_file ["part2"; "alpha"] ["out"])
           (0, 1, 0%Q) w'.
Proof.
  apply (blank_file_is_skipped ["part2"; "alpha"] ["out"] "b.txt" ["a.txt"]
           0 0 0%Q sample_world "  ").
  - vm_compute. reflexivity.
  - reflexivity.
Defined.

(** C5: when the transformation of a file succeeds and the write of the
    result fails, be it that the output file cannot be opened or that an
    exception is raised once it is open, [success_count] is not increased,
    the text is dropped without a second attempt, and the loop goes on with
    the remaining files.  The file system is as the failed write left it:
    unchanged when the file could not be opened, and else changed at the
    output path only, which holds the part of the text that was written
    before the exception. *)
Theorem write_failure_not_counted src out f rest s k t w raw text more e left :
  stat (fs w) (os_path_join src f) = Some (File (Some raw)) ->
  blank raw = false ->
  service w (calls w) raw = inr (Some text :: more) ->
  write_outcome (faults w (output_path_of out f) text)
    (output_path_of out f) text (fs w) = (Some e, left) ->
  exists t' w',
    process_file src out f (s, k, t) w = (Ret (s, k, t'), w')
    /\ fs w' = left
    /\ (forall q, q <> output_path_of out f -> fs w' !! q = fs w !! q)
    /\ (fs w' = fs w
        \/ exists n, fs w' !! output_path_of out f
                     = Some (File (Some (substring 0 n text))))
    /\ calls w' = S (calls w)
    /\ verdicts (printed w w') = [WriteFailed e]
    /\ for_each (f :: rest) (process_file src out) (s, k, t) w
       = for_each rest (process_file src out) (s, k, t') w'.
Proof.
  intros Hst Hb Hsvc Hw.
  destruct (process_file_run src out f s k t w) as (w' & E & Hcon & _ & _ & _ & H).
  rewrite Hst, Hb, Hsvc in H. simpl in H. rewrite Hw in H.
  destruct H as (Hc & Hrun & Hfs & Hv).
  eexists _, w'. rewrite (printed_app _ _ _ Hcon). split_and!; try done.
  - intros q Hq. rewrite Hfs.
    destruct (write_outcome_failed _ _ _ _ _ _ Hw) as [->|(n & ->)]; [done|].
    by rewrite lookup_insert_ne.
  - rewrite Hfs.
    destruct (write_outcome_failed _ _ _ _ _ _ Hw) as [->|(n & ->)];
      [by left|right].
    exists n. by rewrite lookup_insert_eq.
  - by rewrite for_each_cons, Hrun.
Qed.

Lemma write_failure_not_counted_witness :
  exists t' w',
    process_file ["in"] ["out"] "a.txt" (0, 0, 0%Q) full_world
      = (Ret (0, 0, t'), w')
    /\ fs w' = <[["out"; "cleaned_a.txt"] := File (Some "cl")]> three_fs
    /\ (forall q, q <> output_path_of ["out"] "a.txt"
          -> fs w' !! q = fs full_world !! q)
    /\ (fs w' = fs full_world
        \/ exists n, fs w' !! output_path_of ["out"] "a.txt"
                     = Some (File (Some (substring 0 n "clean:first"))))
    /\ calls w' = S (calls full_world)
    /\ verdicts (printed full_world w') = [WriteFailed OSError]
    /\ for_each ["a.txt"] (process_file ["in"] ["out"]) (0, 0, 0%Q) full_world
       = for_each [] (process_file ["in"] ["out"]) (0, 0, t') w'.
Proof.
  apply (write_failure_not_counted ["in"] ["out"] "a.txt" [] 0 0 0%Q
           full_world "first" "clean:first" [] OSError).
  - vm_compute. reflexivity.
  - reflexivity.
  - reflexivity.
  - vm_compute. reflexivity.
Defined.

(** C10, as the code has it: for a file that reaches the transformer, the
    loop body adds to [total_api_time] the duration measured around the
    service call whenever that call returns a reply with a first choice,
    whatever happens to the write afterwards, and also when the content of
    that choice is [None] and the file is reported as failed for want of a
    result; it adds exactly 0 when the call raises or the reply has no
    choice, and the file is reported as failed then too. *)
Theorem api_time_accumulates src out f s k t w raw :
  stat (fs w) (os_path_join src f) = Some (File (Some raw)) ->
  blank raw = false ->
  exists s' k' t' w',
    process_file src out f (s, k, t) w = (Ret (s', k', t'), w') /\
    match service w (calls w) raw with
    | inr (c :: _) =>
        t' = (t + (clock w (2 + ticks w) - clock w (1 + ticks w)))%Q
        /\ (c = None -> s' = s /\ verdicts (printed w w') = [NoResult])
    | _ =>
        t' = (t + 0)%Q /\ (t' == t)%Q
        /\ s' = s /\ verdicts (printed w w') = [NoResult]
    end.
Proof.
  intros Hst Hb.
  destruct (process_file_run src out f s k t w)
    as (w' & E & Hcon & _ & _ & _ & H).
  rewrite Hst, Hb in H. simpl in H. destruct H as (_ & H).
  assert (Hz : (t + 0 == t)%Q) by ring.
  pose proof (printed_app _ _ _ Hcon) as Hp.
  destruct (service w (calls w) raw) as [e|[|c more]]; simpl in H.
  1,2: destruct H as (Hrun & _ & Hv); eexists _, _, _, w';
    (split; [exact Hrun|]); by rewrite Hp.
  destruct c as [text|]; [destruct (write_outcome _ _ _ _) as [[?|] ?]|];
    destruct H as (Hrun & _ & Hv); eexists _, _, _, w';
    (split; [exact Hrun|]); rewrite Hp; by split.
Qed.

Lemma api_time_accumulates_witness :
  exists s' k' t' w',
    process_file ["part2"] ["cleaned_txt_part2"] "a.txt" (0, 0, 0%Q)
      blocked_world = (Ret (s', k', t'), w')
    /\ t' = (0 + (sample_clock 2 - sample_clock 1))%Q
    /\ (Some "clean:hello" = None
        -> s' = 0 /\ verdicts (printed blocked_world w') = [NoResult]).
Proof.
  apply (api_time_accumulates ["part2"] ["cleaned_txt_part2"] "a.txt"
           0 0 0%Q blocked_world "hello").
  - vm_compute. reflexivity.
  - reflexivity.
Defined.

(** C10, as the claim has it, fails: in [silent_world] every call returns
    a reply whose content is [None].  The file is reported as failed for
    want of a result, no success is counted and nothing is written, yet
    the measured duration, which is not 0, is added to the API time; a
    whole directory of such files ends with no success and a positive
    cumulative API time. *)
Lemma failed_call_adds_time :
  (exists w',
     process_file ["in"] ["out"] "a.txt" (0, 0, 0%Q) silent_world
       = (Ret (0, 0, (0 + (sample_clock 2 - sample_clock 1))%Q), w')
     /\ verdicts (printed silent_world w') = [NoResult]
     /\ fs w' = fs silent_world)
  /\ ~ (0 + (sample_clock 2 - sample_clock 1) == 0)%Q
  /\ exists t' w',
       process_directory ["in"] ["out"] silent_world = (Ret (0, 0, 3, t'), w')
       /\ verdicts (printed silent_world w') = [NoResult; NoResult; NoResult]
       /\ (0 < t')%Q.
Proof.
  split_and!.
  - eexists. split_and!; vm_compute; reflexivity.
  - by intros [=].
  - eexists _, _. split_and!; [vm_compute; reflexivity| |];
      vm_compute; reflexivity.
Qed.

(** ** The claims about one directory *)

Lemma verdicts_partition vs :
  length vs
  = count Succeeded vs + count SkippedEmpty vs + length (List.filter is_failure vs).
Proof.
  induction vs as [|v vs IH]; [done|].
  change (v :: vs) with ([v] ++ vs).
  rewrite !count_app, List.filter_app, !length_app, IH.
  destruct v; vm_compute (count _ [_]); simpl; lia.
Qed.

(** C4: for a source directory in which no entry is a regular file with
    the [.txt] extension, [process_directory] returns [(0, 0, 0, 0)]; it
    only prints the notice: the file system is left as it was, so the
    output directory is not created, and no service call is made. *)
Theorem no_eligible_files src out w :
  isdir (fs w) src = true ->
  txt_files_of (fs w) src (entries (fs w) src) = [] ->
  exists w',
    process_directory src out w = (Ret (0, 0, 0, 0%Q), w')
    /\ fs w' = fs w
    /\ exists_ (fs w') out = exists_ (fs w) out
    /\ calls w' = calls w
    /\ printed w w' = [EvNoTxt (os_path_basename src)].
Proof.
  intros Hdir Hnone. unfold process_directory, os_listdir. run.
  rewrite Hdir. simpl. rewrite Hnone. simpl.
  eexists. split; [reflexivity|]. simpl. split_and!; try done.
  by apply printed_app.
Qed.

Lemma no_eligible_files_witness :
  exists w',
    process_directory ["part2"] ["cleaned_txt_part2"] sample_world
      = (Ret (0, 0, 0, 0%Q), w')
    /\ fs w' = fs sample_world
    /\ exists_ (fs w') ["cleaned_txt_part2"]
       = exists_ (fs sample_world) ["cleaned_txt_part2"]
    /\ calls w' = calls sample_world
    /\ printed sample_world w' = [EvNoTxt "part2"].
Proof.
  apply (no_eligible_files ["part2"] ["cleaned_txt_part2"] sample_world).
  - vm_compute. reflexivity.
  - vm_compute. reflexivity.
Defined.

(** C1: whenever [process_directory] returns [(s, k, n, t)], [n] is the
    number of eligible files found, every one of them received exactly one
    verdict, [s] counts the files with the verdict "succeeded" and [k]
    those with the verdict "skipped"; the files with any other verdict are
    the failed ones, so [s + k + failed = n] and [s + k <= n]. *)
Theorem counts_add_up src out w s k n t w' :
  process_directory src out w = (Ret (s, k, n, t), w') ->
  let vs := verdicts (printed w w') in
  n = length (txt_files_of (fs w) src (entries (fs w) src))
  /\ length vs = n
  /\ s = count Succeeded vs
  /\ k = count SkippedEmpty vs
  /\ s + k + length (List.filter is_failure vs) = n
  /\ s + k <= n.
Proof.
  intros Hrun vs.
  enough (n = length (txt_files_of (fs w) src (entries (fs w) src))
          /\ length vs = n /\ s = count Succeeded vs
          /\ k = count SkippedEmpty vs) as (Hn & Hlen & Hs & Hk).
  { pose proof (verdicts_partition vs). split_and!; try done; lia. }
  subst vs. revert Hrun. unfold process_directory, os_listdir. run.
  destruct (isdir (fs w) src); [simpl|done].
  destruct (txt_files_of (fs w) src (entries (fs w) src)) as [|f files] eqn:Hfiles.
  { simpl. intros [= <- <- <- <- <-]. unfold printed. simpl.
    by rewrite drop_app_length. }
  unfold os_makedirs. simpl.
  destruct (makedirs out (fs w)) as [fs'|]; [|done].
  set (w1 := set_fs fs' _).
  destruct (files_run src out (f :: files) 0 0 0%Q w1)
    as (s' & k' & t' & w2 & E & -> & Hcon & Hlen & Hs & Hk & _).
  intros [= <- <- <- <- <-].
  assert (Hp : printed w w2 = EvDirFound (os_path_basename src) (S (length files)) :: E).
  { apply printed_app. rewrite Hcon. subst w1. simpl. by rewrite <- app_assoc. }
  rewrite Hp. change (verdicts (_ :: E)) with (verdicts E). done.
Qed.

Lemma counts_add_up_witness :
  let w' := snd (process_directory ["part2"; "alpha"] ["out"] sample_world) in
  let vs := verdicts (printed sample_world w') in
  2 = length (txt_files_of (fs sample_world) ["part2"; "alpha"]
                (entries (fs sample_world) ["part2"; "alpha"]))
  /\ length vs = 2
  /\ 1 = count Succeeded vs
  /\ 1 = count SkippedEmpty vs
  /\ 1 + 1 + length (List.filter is_failure vs) = 2
  /\ 1 + 1 <= 2.
Proof.
  apply (counts_add_up ["part2"; "alpha"] ["out"] sample_world 1 1 2
           (0 + (sample_clock 3 - sample_clock 2))%Q).
  vm_compute. reflexivity.
Defined.

(** A directory that can be listed, with an output directory that can be
    made, is always processed to the end: no file makes the run raise. *)
Lemma process_directory_returns src out w m :
  isdir (fs w) src = true ->
  makedirs out (fs w) = Some m ->
  exists s k t w',
    process_directory src out w
    = (Ret (s, k, length (txt_files_of (fs w) src (entries (fs w) src)), t), w').
Proof.
  intros Hdir Hmk. unfold process_directory, os_listdir. run.
  rewrite Hdir. simpl.
  destruct (txt_files_of (fs w) src (entries (fs w) src)) as [|f files];
    [simpl; eauto|].
  unfold os_makedirs. simpl. rewrite Hmk.
  set (w1 := set_fs m _).
  destruct (files_run src out (f :: files) 0 0 0%Q w1)
    as (s' & k' & t' & w2 & E & -> & _). eauto.
Qed.

(** ** Start-up and the missing root directory *)

Lemma makedirs_one (x : string) (m : fsys) :
  makedirs [x] m =
  match m !! [x] with
  | Some Dir => Some m
  | Some (File _) => None
  | None => Some (<[ [x] := Dir ]> m)
  end.
Proof. reflexivity. Qed.

(** The module body, when it does not raise, leaves a directory at
    [ROOT_OUTPUT_FOLDER] and touches nothing else. *)
Lemma module_body_run w w1 :
  module_body w = (Ret tt, w1) ->
  credentials w = true
  /\ (fs w !! ROOT_OUTPUT_FOLDER = Some Dir /\ w1 = set_fs (fs w) w
      \/ fs w !! ROOT_OUTPUT_FOLDER = None
         /\ w1 = set_fs (<[ROOT_OUTPUT_FOLDER := Dir]> (fs w)) w).
Proof.
  unfold module_body, OpenAI, os_makedirs, bind, ROOT_OUTPUT_FOLDER.
  destruct (credentials w); [|done].
  rewrite makedirs_one.
  destruct (fs w !! ["cleaned_txt_part2"]) as [[|c]|] eqn:Hout;
    [intros [= <-]; auto | done | intros [= <-]; auto].
Qed.

Lemma module_body_keeps_source w w1 :
  module_body w = (Ret tt, w1) ->
  exists_ (fs w1) ROOT_SOURCE_FOLDER = exists_ (fs w) ROOT_SOURCE_FOLDER.
Proof.
  intros [_ [[_ ->]|[_ ->]]]%module_body_run; [done|].
  unfold exists_, stat. simpl. by rewrite lookup_insert_ne.
Qed.

Lemma module_body_makes_output w w1 :
  module_body w = (Ret tt, w1) -> isdir (fs w1) ROOT_OUTPUT_FOLDER = true.
Proof.
  intros [_ [[H ->]|[_ ->]]]%module_body_run; unfold isdir, stat; simpl.
  - change ["cleaned_txt_part2"] with ROOT_OUTPUT_FOLDER. by rewrite H.
  - change ["cleaned_txt_part2"] with ROOT_OUTPUT_FOLDER.
    by rewrite lookup_insert_eq.
Qed.

(** Lines 103-105: without the root, only the error line is printed. *)
Lemma missing_root_run w :
  exists_ (fs w) ROOT_SOURCE_FOLDER = false ->
  process_root_directory w
  = (Ret tt, set_console (console w ++ [EvRootMissing]) w).
Proof.
  intros H. unfold process_root_directory, os_path_exists. run.
  by rewrite H.
Qed.

Lemma main_unfold w w1 :
  module_body w = (Ret tt, w1) -> main w = process_root_directory w1.
Proof. intros H. unfold main, bind. by rewrite H. Qed.

(** C2, as the code has it: the script has no exit path of its own, so
    its status is 0 whenever no exception escapes, and this includes the
    run in which [ROOT_SOURCE_FOLDER] does not exist: after a start-up
    that went through, [process_root_directory] prints the error line and
    returns at once; no directory is listed, no file is read or written,
    the clock is not read and the service is not called. *)
Theorem missing_root_exits_zero w w1 :
  module_body w = (Ret tt, w1) ->
  exists_ (fs w) ROOT_SOURCE_FOLDER = false ->
  exists w',
    main w = (Ret tt, w')
    /\ exit_status (fst (main w)) = 0%Z
    /\ printed w w' = [EvRootMissing]
    /\ fs w' = fs w1 /\ calls w' = calls w /\ ticks w' = ticks w.
Proof.
  intros Hboot Hroot.
  rewrite (main_unfold _ _ Hboot), missing_root_run
    by by rewrite (module_body_keeps_source _ _ Hboot).
  eexists. split; [reflexivity|]. simpl.
  destruct (module_body_run _ _ Hboot) as [_ [[_ ->]|[_ ->]]]; simpl;
    split_and!; try done; by apply printed_app.
Qed.

Lemma missing_root_exits_zero_witness :
  exists w',
    main empty_world = (Ret tt, w')
    /\ exit_status (fst (main empty_world)) = 0%Z
    /\ printed empty_world w' = [EvRootMissing]
    /\ fs w' = fs (snd (module_body empty_world))
    /\ calls w' = calls empty_world /\ ticks w' = ticks empty_world.
Proof.
  apply (missing_root_exits_zero empty_world (snd (module_body empty_world))).
  - vm_compute. reflexivity.
  - vm_compute. reflexivity.
Defined.

(** C2, as the claim has it, fails: in [empty_world] the root source
    directory does not exist and the exit status is 0 all the same. *)
Lemma exit_status_zero_without_root :
  exists_ (fs empty_world) ROOT_SOURCE_FOLDER = false
  /\ exit_status (fst (main empty_world)) = 0%Z
  /\ ~ (exit_status (fst (main empty_world)) <> 0%Z
        <-> exists_ (fs empty_world) ROOT_SOURCE_FOLDER = false).
Proof.
  assert (H1 : exists_ (fs empty_world) ROOT_SOURCE_FOLDER = false)
    by (vm_compute; reflexivity).
  assert (H2 : exit_status (fst (main empty_world)) = 0%Z)
    by (vm_compute; reflexivity).
  split_and!; [done..|]. intros [_ H]. by apply H.
Qed.

(** C9: the module body creates [ROOT_OUTPUT_FOLDER] (and changes nothing
    when it is there already) before [process_root_directory] looks for
    the root source directory; so a run that stops at the missing root
    has the output root in its final file system. *)
Theorem output_root_created_at_startup w w1 :
  module_body w = (Ret tt, w1) ->
  isdir (fs w1) ROOT_OUTPUT_FOLDER = true
  /\ (isdir (fs w) ROOT_OUTPUT_FOLDER = true -> fs w1 = fs w)
  /\ main w = process_root_directory w1
  /\ (exists_ (fs w) ROOT_SOURCE_FOLDER = false ->
      exists w',
        main w = (Ret tt, w')
        /\ printed w w' = [EvRootMissing]
        /\ isdir (fs w') ROOT_OUTPUT_FOLDER = true
        /\ (exists_ (fs w) ROOT_OUTPUT_FOLDER = false ->
            fs w' = <[ROOT_OUTPUT_FOLDER := Dir]> (fs w))).
Proof.
  intros Hboot.
  pose proof (module_body_makes_output _ _ Hboot) as Hout.
  pose proof (main_unfold _ _ Hboot) as Hmain.
  split_and!; try done.
  - destruct (module_body_run _ _ Hboot) as [_ [[_ ->]|[Hnone ->]]]; [done|].
    unfold isdir, stat. simpl.
    change ["cleaned_txt_part2"] with ROOT_OUTPUT_FOLDER. by rewrite Hnone.
  - intros Hroot.
    rewrite Hmain, missing_root_run
      by by rewrite (module_body_keeps_source _ _ Hboot).
    eexists. split; [reflexivity|]. simpl. split_and!; try done.
    + destruct (module_body_run _ _ Hboot) as [_ [[_ ->]|[_ ->]]];
        by apply printed_app.
    + destruct (module_body_run _ _ Hboot) as [_ [[Hd ->]|[_ ->]]]; [|done].
      unfold exists_, stat. simpl.
      change ["cleaned_txt_part2"] with ROOT_OUTPUT_FOLDER. by rewrite Hd.
Qed.

Lemma output_root_created_at_startup_witness :
  exists_ (fs empty_world) ROOT_SOURCE_FOLDER = false
  /\ exists w',
       main empty_world = (Ret tt, w')
       /\ printed empty_world w' = [EvRootMissing]
       /\ isdir (fs w') ROOT_OUTPUT_FOLDER = true.
Proof.
  split; [vm_compute; reflexivity|].
  destruct (output_root_created_at_startup empty_world
              (snd (module_body empty_world))) as (_ & _ & _ & H).
  - vm_compute. reflexivity.
  - destruct H as (w' & H1 & H2 & H3 & _); [vm_compute; reflexivity|].
    exists w'. auto.
Defined.

(** ** The report *)

Lemma bind_print {A} e (k : unit -> M A) w :
  bind (print e) k w = k tt (set_console (console w ++ [e]) w).
Proof. reflexivity. Qed.

Lemma of_int_nonzero n : 0 < n -> Qeq_bool (of_int n) 0 = false.
Proof.
  intros Hn. unfold Qeq_bool, of_int. simpl. apply Z.eqb_neq. lia.
Qed.

Lemma bind_truediv {A} a b (k : Q -> M A) w :
  Qeq_bool b 0 = false -> bind (truediv a b) k w = k (a / b)%Q w.
Proof. intros H. unfold bind, truediv. by rewrite H. Qed.

Lemma report_dir_run r w :
  report_dir r tt w = (Ret tt, set_console (console w ++ [dir_line r]) w).
Proof.
  unfold report_dir, dir_line.
  destruct (Nat.ltb 0 (r_total r)) eqn:Hn; [|done].
  apply Nat.ltb_lt in Hn. by rewrite bind_truediv by by apply of_int_nonzero.
Qed.

Lemma report_dirs_run rs w :
  for_each rs report_dir tt w
  = (Ret tt, set_console (console w ++ List.map dir_line rs) w).
Proof.
  revert w. induction rs as [|r rs IH]; intros w.
  - simpl. rewrite app_nil_r. by destruct w.
  - rewrite for_each_cons, report_dir_run, IH. simpl.
    by rewrite <- app_assoc.
Qed.

(** The report prints [report_lines] and nothing else, provided the one
    division whose divisor is not tested does not divide by 0. *)
Lemma report_run sums total_elapsed w :
  (0 < total_success sums -> gt (total_api_time sums) 0 = true ->
   Qeq_bool total_elapsed 0 = false) ->
  report sums total_elapsed w
  = (Ret tt, set_console (console w ++ report_lines sums total_elapsed) w).
Proof.
  intros Hdiv. unfold report, report_lines, rate_lines, minutes_line.
  rewrite !bind_print. unfold bind at 1. rewrite report_dirs_run.
  rewrite !bind_print. unfold bind at 1.
  destruct (Nat.ltb 0 (total_success sums)) eqn:Hs.
  - apply Nat.ltb_lt in Hs.
    rewrite !(bind_truediv _ (of_int _)) by by apply of_int_nonzero.
    rewrite bind_print, bind_truediv by by apply of_int_nonzero.
    rewrite bind_print.
    destruct (gt (total_api_time sums) 0) eqn:Ha.
    + rewrite bind_truediv by auto. unfold print at 1.
      rewrite bind_print.
      destruct (gt total_elapsed 60); unfold bind, print, ret; simpl;
        repeat (rewrite <- ?app_assoc; simpl); reflexivity.
    + unfold ret at 1. rewrite bind_print.
      destruct (gt total_elapsed 60); unfold bind, print, ret; simpl;
        repeat (rewrite <- ?app_assoc; simpl); reflexivity.
  - unfold ret at 1. rewrite bind_print.
    destruct (gt total_elapsed 60); unfold bind, print, ret; simpl;
      repeat (rewrite <- ?app_assoc; simpl); reflexivity.
Qed.

Lemma dir_line_not_rate r q :
  dir_line r <> EvAvgFile q /\ dir_line r <> EvAvgApi q
  /\ dir_line r <> EvApiRatio q.
Proof. unfold dir_line. by destruct (Nat.ltb 0 (r_total r)). Qed.

Lemma minutes_line_not_rate t q :
  (EvAvgFile q ∉ minutes_line t) /\ (EvAvgApi q ∉ minutes_line t)
  /\ (EvApiRatio q ∉ minutes_line t).
Proof.
  unfold minutes_line. destruct (gt t 60); split_and!;
    intros H; repeat (apply elem_of_cons in H as [H|H]; [done|]);
    by apply elem_of_nil in H.
Qed.

(** Outside [rate_lines] the report has no average and no share. *)
Lemma report_lines_rate sums t e :
  (exists q, e = EvAvgFile q \/ e = EvAvgApi q \/ e = EvApiRatio q) ->
  e ∈ report_lines sums t -> e ∈ rate_lines sums t.
Proof.
  intros (q & He) Hin. unfold report_lines in Hin.
  repeat (apply elem_of_app in Hin as [Hin|Hin]); try done.
  - repeat (apply elem_of_cons in Hin as [Hin|Hin];
            [destruct He as [->|[->| ->]]; done|]).
    by apply elem_of_nil in Hin.
  - apply list_elem_of_In, in_map_iff in Hin as (r & Hr & _).
    destruct (dir_line_not_rate r q) as (H1 & H2 & H3).
    destruct He as [->|[->| ->]]; congruence.
  - repeat (apply elem_of_cons in Hin as [Hin|Hin];
            [destruct He as [->|[->| ->]]; done|]).
    by apply elem_of_nil in Hin.
  - repeat (apply elem_of_cons in Hin as [Hin|Hin];
            [destruct He as [->|[->| ->]]; done|]).
    by apply elem_of_nil in Hin.
  - destruct (minutes_line_not_rate t q) as (H1 & H2 & H3).
    destruct He as [->|[->| ->]]; done.
  - repeat (apply elem_of_cons in Hin as [Hin|Hin];
            [destruct He as [->|[->| ->]]; done|]).
    by apply elem_of_nil in Hin.
Qed.

(** C8, as the code has it: for a directory with files the report shows
    [success / total * 100], for one without it shows the "no files" line.
    With at least one success overall it shows the average time per file,
    [total_elapsed / total_success], and, when [total_api_time] is positive
    as well, the share [total_api_time / total_elapsed * 100]; it shows no
    share when [total_api_time] is not positive.  Without any success it
    shows no average and no share, and nothing in their place. *)
Theorem report_rates sums total_elapsed w :
  (0 < total_success sums -> gt (total_api_time sums) 0 = true ->
   Qeq_bool total_elapsed 0 = false) ->
  exists w',
    report sums total_elapsed w = (Ret tt, w') /\
    let E := printed w w' in
    (forall r, r ∈ dir_results sums ->
       if Nat.ltb 0 (r_total r) then
         EvDirRate (r_name r) (r_success r) (r_total r)
           (of_int (r_success r) / of_int (r_total r) * 100)%Q (r_time r) ∈ E
       else EvDirNoFiles (r_name r) ∈ E)
    /\ (if Nat.ltb 0 (total_success sums) then
          EvAvgFile (total_elapsed / of_int (total_success sums))%Q ∈ E
          /\ (if gt (total_api_time sums) 0 then
                EvApiRatio (total_api_time sums / total_elapsed * 100)%Q ∈ E
              else forall q, EvApiRatio q ∉ E)
        else
          forall q, (EvAvgFile q ∉ E) /\ (EvAvgApi q ∉ E) /\ (EvApiRatio q ∉ E)).
Proof.
  intros Hdiv. rewrite (report_run _ _ _ Hdiv). eexists. split; [reflexivity|].
  rewrite (printed_app w _ (report_lines sums total_elapsed)) by done.
  cbv zeta. split.
  - intros r Hr.
    assert (Hl : dir_line r ∈ report_lines sums total_elapsed).
    { unfold report_lines. apply elem_of_app. right. apply elem_of_app. left.
      apply list_elem_of_In, in_map, list_elem_of_In, Hr. }
    unfold dir_line in Hl. by destruct (Nat.ltb 0 (r_total r)).
  - pose proof (report_lines_rate sums total_elapsed) as Hrate.
    assert (Hsub : forall e, e ∈ rate_lines sums total_elapsed ->
                             e ∈ report_lines sums total_elapsed).
    { intros e He. unfold report_lines. do 3 (apply elem_of_app; right).
      apply elem_of_app. by left. }
    unfold rate_lines in *.
    destruct (Nat.ltb 0 (total_success sums)).
    + split; [apply Hsub; left|].
      destruct (gt (total_api_time sums) 0).
      * apply Hsub. right. right. left.
      * intros q Hq. apply Hrate in Hq; [|eauto].
        repeat (apply elem_of_cons in Hq as [Hq|Hq]; [done|]).
        by apply elem_of_nil in Hq.
    + intros q. split_and!; intros Hq; apply Hrate in Hq; eauto;
        by apply elem_of_nil in Hq.
Qed.

Lemma report_rates_witness :
  exists w',
    report sample_sums 14 sample_world = (Ret tt, w')
    /\ EvAvgFile (14 / of_int 2)%Q ∈ printed sample_world w'
    /\ EvApiRatio (2 / 14 * 100)%Q ∈ printed sample_world w'.
Proof.
  destruct (report_rates sample_sums 14 sample_world) as (w' & Hrun & _ & H).
  - intros _ _. reflexivity.
  - exists w'. split; [exact Hrun|]. exact H.
Defined.

(** C8, as the claim has it, fails: the run in [blocked_world] reaches the
    report with [blocked_sums] and [blocked_elapsed]; the service time and
    the elapsed time are both positive, and the report shows neither the
    share nor any line standing for it. *)
Lemma share_not_reported :
  fst (for_each [("", ROOT_SOURCE_FOLDER)] process_unit (Totals 0 0 0 0%Q [])
         (set_ticks 1 blocked_world)) = Ret blocked_sums
  /\ gt (total_api_time blocked_sums) 0 = true
  /\ gt blocked_elapsed 0 = true
  /\ fst (report blocked_sums blocked_elapsed blocked_world) = Ret tt
  /\ printed blocked_world
       (snd (report blocked_sums blocked_elapsed blocked_world))
     = [EvRule; EvHeading "report"; EvHeading "directories"; EvRule;
        EvDirRate "(root)" 0 1 (of_int 0 / of_int 1 * 100)%Q
          (sample_clock 6 - sample_clock 1)%Q;
        EvHeading "summary"; EvRule; EvTotalDirs 1; EvTotalFiles 1;
        EvTotalSuccess 0; EvTotalSkip 0; EvTotalElapsed blocked_elapsed;
        EvSavedTo ROOT_OUTPUT_FOLDER]
  /\ fst (main blocked_world) = Ret tt
  /\ (forall q, EvApiRatio q ∉ console (snd (main blocked_world))).
Proof.
  split_and!; try (vm_compute; reflexivity).
  intros q Hq. vm_compute in Hq.
  repeat (apply elem_of_cons in Hq as [Hq|Hq]; [discriminate Hq|]).
  by apply elem_of_nil in Hq.
Qed.

(** The share is computed under the test [total_api_time > 0] alone: were
    the elapsed time 0 there, the division would raise. *)
Example report_divides_by_zero :
  fst (report (Totals 1 0 1 1%Q [DirResult "a" 1 0 1 1%Q 1%Q]) 0 sample_world)
  = Raise ZeroDivisionError.
Proof. vm_compute. reflexivity. Qed.

(** The run on the sample tree: three files, two cleaned, one skipped. *)
Example sample_run :
  fst (main sample_world) = Ret tt
  /\ EvTotalFiles 3 ∈ console (snd (main sample_world))
  /\ EvTotalSuccess 2 ∈ console (snd (main sample_world))
  /\ EvTotalSkip 1 ∈ console (snd (main sample_world))
  /\ fs (snd (main sample_world))
       !! ["cleaned_txt_part2"; "alpha"; "cleaned_a.txt"]
     = Some (File (Some "clean:hello")).
Proof.
  split_and!; try (vm_compute; reflexivity);
    vm_compute (console _); repeat first [by left | right].
Qed.

(** ** Isolation of a failing service call *)

Lemma join_inj (d1 d2 : path) (x1 x2 : string) :
  os_path_join d1 x1 = os_path_join d2 x2 -> d1 = d2 /\ x1 = x2.
Proof. unfold os_path_join. intros H. by apply app_inj_tail in H. Qed.

Lemma join_not_nil (d : path) (x : string) : os_path_join d x <> [].
Proof. unfold os_path_join. by destruct d. Qed.

Lemma removelast_join (d : path) (x : string) :
  removelast (os_path_join d x) = d.
Proof. apply removelast_last. Qed.

Lemma stat_join (m : fsys) (d : path) (x : string) :
  stat m (os_path_join d x) = m !! os_path_join d x.
Proof.
  unfold stat. pose proof (join_not_nil d x).
  by destruct (os_path_join d x).
Qed.

Lemma fst_cleaned_of r e1 e2 : fst (cleaned_of r e1) = fst (cleaned_of r e2).
Proof. by destruct r as [|[|]]. Qed.

Lemma agree_off_stat (tgt : path) (mA mB : fsys) (q : path) :
  agree_off tgt mA mB -> q <> tgt -> stat mA q = stat mB q.
Proof. intros [H _] Hq. unfold stat. destruct q; [done|]. by apply H. Qed.

Lemma agree_off_isdir (tgt : path) (mA mB : fsys) (q : path) :
  agree_off tgt mA mB -> isdir mA q = isdir mB q.
Proof.
  intros H. destruct (decide (q = tgt)) as [->|Hq]; [apply H|].
  unfold isdir. by rewrite (agree_off_stat _ _ _ _ H Hq).
Qed.

Lemma agree_off_insert (tgt : path) (mA mB : fsys) (p : path) (n : node) :
  agree_off tgt mA mB -> p <> [] ->
  agree_off tgt (<[p := n]> mA) (<[p := n]> mB).
Proof.
  intros [Hoff Hdir] Hnil. split.
  - intros q Hq. destruct (decide (p = q)) as [<-|Hne].
    + by rewrite !lookup_insert_eq.
    + rewrite !lookup_insert_ne by done. by apply Hoff.
  - unfold isdir, stat in *. destruct tgt as [|b tgt]; [done|].
    destruct (decide (p = b :: tgt)) as [->|Hne].
    + by rewrite !lookup_insert_eq.
    + by rewrite !lookup_insert_ne.
Qed.

(** Writing the same text at the same place, under the same fault, ends
    the same way in two file systems that agree and keeps them in
    agreement. *)
Lemma agree_off_write (tgt : path) (mA mB : fsys) (out : path)
    (x s : string) (flt : fault) :
  agree_off tgt mA mB ->
  fst (write_outcome flt (os_path_join out x) s mA)
  = fst (write_outcome flt (os_path_join out x) s mB)
  /\ agree_off tgt (snd (write_outcome flt (os_path_join out x) s mA))
       (snd (write_outcome flt (os_path_join out x) s mB)).
Proof.
  intros H. unfold write_outcome, open_w.
  pose proof (join_not_nil out x) as Hnil.
  destruct (os_path_join out x) as [|a p] eqn:Hp; [done|]. rewrite <- Hp.
  rewrite removelast_join, !(agree_off_isdir _ _ _ _ H).
  destruct (isdir mB out && negb (isdir mB (os_path_join out x))); [|done].
  destruct flt as [[e n]|]; simpl; (split; [done|]);
    do 2 (apply agree_off_insert; [|by rewrite ?Hp]); done.
Qed.

Lemma sim_after idx tgt src out g accA accB wA wB accA' wA' accB' wB' :
  sim idx tgt wA wB ->
  process_file src out g accA wA = (Ret accA', wA') ->
  process_file src out g accB wB = (Ret accB', wB') ->
  service wA' = service wA -> service wB' = service wB ->
  calls wA' = calls wB' ->
  agree_off tgt (fs wA') (fs wB') ->
  sim idx tgt wA' wB'.
Proof.
  intros (Hs & _ & Hf & _) HrunA HrunB HsA HsB Hc Hfs. unfold sim.
  pose proof (process_file_faults src out g accA wA) as HfA.
  pose proof (process_file_faults src out g accB wB) as HfB.
  rewrite HrunA in HfA. rewrite HrunB in HfB. simpl in HfA, HfB.
  by rewrite HsA, HsB, Hs, HfA, HfB, Hf.
Qed.

(** One file in the two runs: unless this is the call that was made to
    fail, the file gets the same verdict in both and the two worlds stay
    in agreement. *)
Lemma sim_step src out tgt idx g sA kA tA sB kB tB wA wB :
  src <> out ->
  (exists x, tgt = os_path_join out x) ->
  sim idx tgt wA wB ->
  (calls wB = idx ->
   forall raw, stat (fs wB) (os_path_join src g) = Some (File (Some raw)) ->
               blank raw = true) ->
  exists accA' wA' accB' wB' EA EB,
    process_file src out g (sA, kA, tA) wA = (Ret accA', wA')
    /\ process_file src out g (sB, kB, tB) wB = (Ret accB', wB')
    /\ console wA' = console wA ++ EA /\ console wB' = console wB ++ EB
    /\ verdicts EA = verdicts EB /\ length (verdicts EB) = 1
    /\ sim idx tgt wA' wB' /\ calls wB <= calls wB'.
Proof.
  intros Hne (x & ->) Hsim Hcall.
  destruct (process_file_run src out g sA kA tA wA)
    as (wA' & EA & HconA & HsvcA & _ & _ & HA).
  destruct (process_file_run src out g sB kB tB wB)
    as (wB' & EB & HconB & HsvcB & _ & _ & HB).
  pose proof Hsim as (Hsvc & Hcalls & Hflt & Hfs).
  assert (Hst : stat (fs wA) (os_path_join src g)
                = stat (fs wB) (os_path_join src g)).
  { apply (agree_off_stat _ _ _ _ Hfs). by intros [? _]%join_inj. }
  rewrite Hst in HA.
  destruct (stat (fs wB) (os_path_join src g)) as [[|[raw|]]|] eqn:HstB.
  1,3,4: destruct HA as (HrunA & HfsA & HcA & HvA);
    destruct HB as (HrunB & HfsB & HcB & HvB);
    eexists _, wA', _, wB', EA, EB; split_and!; try done;
    [by rewrite HvA, HvB | by rewrite HvB
     | apply (sim_after _ _ _ _ _ _ _ _ _ _ _ _ _ Hsim HrunA HrunB);
       try done; congruence | lia].
  destruct (blank raw) eqn:Hb.
  { destruct HA as (HrunA & HfsA & HcA & HvA).
    destruct HB as (HrunB & HfsB & HcB & HvB).
    eexists _, wA', _, wB', EA, EB; split_and!; try done;
    [by rewrite HvA, HvB | by rewrite HvB
     | apply (sim_after _ _ _ _ _ _ _ _ _ _ _ _ _ Hsim HrunA HrunB);
       try done; congruence | lia]. }
  assert (Hidx : calls wB <> idx).
  { intros Hi. specialize (Hcall Hi raw eq_refl). congruence. }
  assert (Hreply : service wA (calls wA) raw = service wB (calls wB) raw).
  { rewrite Hsvc, Hcalls. unfold inject_failure.
    by destruct (Nat.eqb_spec (calls wB) idx). }
  cbv zeta in HA, HB. rewrite Hreply in HA.
  destruct HA as (HcA & HA). destruct HB as (HcB & HB).
  rewrite (fst_cleaned_of _ _ (measured (set_ticks (S (ticks wB)) wB))) in HA.
  destruct (fst (cleaned_of _ _)) as [text|].
  - unfold output_path_of in *. rewrite Hflt in HA.
    destruct (agree_off_write _ _ _ out ("cleaned_" +:+ g) text
                (faults wB (os_path_join out ("cleaned_" +:+ g)) text) Hfs)
      as [Hr Hag].
    destruct (write_outcome _ _ text (fs wA)) as [rA mA],
             (write_outcome _ _ text (fs wB)) as [rB mB].
    simpl in Hr, Hag. subst rB. destruct rA as [e|];
      destruct HA as (HrunA & HfsA & HvA); destruct HB as (HrunB & HfsB & HvB);
      eexists _, wA', _, wB', EA, EB; split_and!; try done;
      [by rewrite HvA, HvB | by rewrite HvB
       | apply (sim_after _ _ _ _ _ _ _ _ _ _ _ _ _ Hsim HrunA HrunB);
       try done; congruence | lia
       | by rewrite HvA, HvB | by rewrite HvB
       | apply (sim_after _ _ _ _ _ _ _ _ _ _ _ _ _ Hsim HrunA HrunB);
       try done; congruence | lia].
  - destruct HA as (HrunA & HfsA & HvA). destruct HB as (HrunB & HfsB & HvB).
    eexists _, wA', _, wB', EA, EB; split_and!; try done;
    [by rewrite HvA, HvB | by rewrite HvB
     | apply (sim_after _ _ _ _ _ _ _ _ _ _ _ _ _ Hsim HrunA HrunB);
       try done; congruence | lia].
Qed.

(** A file that reaches the transformer costs one service call. *)
Lemma process_file_calls src out g s k t w raw :
  stat (fs w) (os_path_join src g) = Some (File (Some raw)) ->
  blank raw = false ->
  exists acc' w',
    process_file src out g (s, k, t) w = (Ret acc', w')
    /\ calls w' = S (calls w).
Proof.
  intros Hst Hb.
  destruct (process_file_run src out g s k t w) as (w' & E & _ & _ & _ & _ & H).
  rewrite Hst, Hb in H. cbv zeta in H. destruct H as (Hc & H).
  destruct (fst _); [destruct (write_outcome _ _ _ _) as [[?|] ?]|];
    destruct H as (Hrun & _); eauto.
Qed.

(** A stretch of the loop in the two runs: as long as the call that was
    made to fail is not in this stretch, the files get the same verdicts. *)
Lemma sim_loop src out tgt idx files :
  src <> out ->
  (exists x, tgt = os_path_join out x) ->
  forall accA accB wA wB,
    sim idx tgt wA wB ->
    (calls (snd (for_each files (process_file src out) accB wB)) <= idx
     \/ idx < calls wB) ->
    exists accA' wA' accB' wB' EA EB,
      for_each files (process_file src out) accA wA = (Ret accA', wA')
      /\ for_each files (process_file src out) accB wB = (Ret accB', wB')
      /\ console wA' = console wA ++ EA /\ console wB' = console wB ++ EB
      /\ verdicts EA = verdicts EB /\ length (verdicts EB) = length files
      /\ sim idx tgt wA' wB' /\ calls wB <= calls wB'.
Proof.
  intros Hne Htgt.
  induction files as [|g files IH]; intros accA accB wA wB Hsim Hidx.
  { exists accA, wA, accB, wB, [], []. rewrite !app_nil_r.
    split_and!; done. }
  destruct accA as [[sA kA] tA], accB as [[sB kB] tB].
  assert (Hcall : calls wB = idx ->
            forall raw,
              stat (fs wB) (os_path_join src g) = Some (File (Some raw)) ->
              blank raw = true).
  { intros Hi raw Hst. destruct (blank raw) eqn:Hb; [done|]. exfalso.
    destruct (process_file_calls src out g sB kB tB wB raw Hst Hb)
      as ([[s1 k1] t1] & w1 & Hrun & Hc).
    rewrite for_each_cons, Hrun in Hidx.
    destruct (files_run src out files s1 k1 t1 w1)
      as (s2 & k2 & t2 & w2 & E & Hrun2 & _ & _ & _ & _ & Hle & _).
    rewrite Hrun2 in Hidx. simpl in Hidx. lia. }
  destruct (sim_step src out tgt idx g sA kA tA sB kB tB wA wB Hne Htgt Hsim
              Hcall)
    as (accA1 & wA1 & accB1 & wB1 & EA1 & EB1 & HrunA & HrunB & HconA & HconB
        & Hv & Hlen & Hsim1 & Hle).
  destruct (IH accA1 accB1 wA1 wB1 Hsim1)
    as (accA2 & wA2 & accB2 & wB2 & EA2 & EB2 & HrunA2 & HrunB2 & HconA2
        & HconB2 & Hv2 & Hlen2 & Hsim2 & Hle2).
  { rewrite for_each_cons, HrunB in Hidx. destruct Hidx; [by left|right; lia]. }
  exists accA2, wA2, accB2, wB2, (EA1 ++ EA2), (EB1 ++ EB2).
  rewrite !for_each_cons, HrunA, HrunB, HconA2, HconB2, HconA, HconB.
  rewrite !verdicts_app, Hv, Hv2, length_app, Hlen, Hlen2, !app_assoc.
  split_and!; try done. lia.
Qed.

(** The loop writes below [out] only. *)
Lemma loop_frame src out files (q : path) :
  (forall x, q <> os_path_join out x) ->
  forall acc w,
    fs (snd (for_each files (process_file src out) acc w)) !! q = fs w !! q.
Proof.
  intros Hq. induction files as [|g files IH]; intros [[s k] t] w; [done|].
  destruct (process_file_run src out g s k t w) as (w' & E & _ & _ & _ & _ & H).
  assert (exists acc', process_file src out g (s, k, t) w = (Ret acc', w')
                       /\ fs w' !! q = fs w !! q) as (acc' & Hrun & Hfs).
  { destruct (stat (fs w) (os_path_join src g)) as [[|[raw|]]|].
    1,3,4: destruct H as (Hrun & -> & _); eauto.
    destruct (blank raw); [destruct H as (Hrun & -> & _); eauto|].
    cbv zeta in H. destruct H as (_ & H).
    destruct (fst _) as [text|];
      [destruct (write_outcome _ _ _ _) as [[e|] m] eqn:Hw|];
      destruct H as (Hrun & -> & _); eauto;
      (destruct (write_outcome_stored _ _ _ _ _ _ Hw)
         as [->|(_ & _ & s' & ->)]; [by eauto|]);
      (eexists; split; [done|]);
      apply lookup_insert_ne, not_eq_sym, Hq. }
  by rewrite for_each_cons, Hrun, IH.
Qed.

(** The file whose service call is made to fail: it ends without a
    result in that run, whatever it does in the other, and the two worlds
    agree afterwards except at the output path of this file. *)
Lemma sim_failed_step src out idx f sA kA tA sB kB tB wA wB raw :
  src <> out ->
  sim idx (output_path_of out f) wA wB ->
  calls wB = idx ->
  stat (fs wB) (os_path_join src f) = Some (File (Some raw)) ->
  blank raw = false ->
  exists accA' wA' accB' wB' EA EB,
    process_file src out f (sA, kA, tA) wA = (Ret accA', wA')
    /\ process_file src out f (sB, kB, tB) wB = (Ret accB', wB')
    /\ console wA' = console wA ++ EA /\ console wB' = console wB ++ EB
    /\ verdicts EA = [NoResult] /\ length (verdicts EB) = 1
    /\ sim idx (output_path_of out f) wA' wB' /\ idx < calls wB'.
Proof.
  intros Hne Hsim Hidx HstB Hb.
  destruct (process_file_run src out f sA kA tA wA)
    as (wA' & EA & HconA & HsvcA & _ & _ & HA).
  destruct (process_file_run src out f sB kB tB wB)
    as (wB' & EB & HconB & HsvcB & _ & _ & HB).
  pose proof Hsim as (Hsvc & Hcalls & Hflt & Hfs).
  assert (Hst : stat (fs wA) (os_path_join src f)
                = stat (fs wB) (os_path_join src f)).
  { apply (agree_off_stat _ _ _ _ Hfs). by intros [? _]%join_inj. }
  rewrite Hst, HstB, Hb in HA. rewrite HstB, Hb in HB.
  assert (Hreply : service wA (calls wA) raw = inl (APIError "injected")).
  { rewrite Hsvc, Hcalls, Hidx. unfold inject_failure.
    by rewrite Nat.eqb_refl. }
  cbv zeta in HA, HB. rewrite Hreply in HA. cbn [cleaned_of fst snd] in HA.
  destruct HA as (HcA & HrunA & HfsA & HvA). destruct HB as (HcB & HB).
  destruct (fst (cleaned_of _ _)) as [text|];
    [destruct (write_outcome _ _ text (fs wB)) as [[e|] mB] eqn:Hw|];
    destruct HB as (HrunB & HfsB & HvB);
    eexists _, wA', _, wB', EA, EB; split_and!; try done;
    try (by rewrite HvB); try lia;
    apply (sim_after _ _ _ _ _ _ _ _ _ _ _ _ _ Hsim HrunA HrunB);
    try done; try congruence;
    rewrite HfsA, HfsB;
    (destruct (write_outcome_stored _ _ _ _ _ _ Hw)
       as [->|(_ & Hnd & s' & ->)]; [done|]);
    destruct Hfs as [Hoff Hdir]; (split;
      [intros q Hq; rewrite lookup_insert_ne by done; by apply Hoff
      |rewrite Hdir, Hnd; unfold isdir, output_path_of;
       by rewrite stat_join, lookup_insert_eq]).
Qed.

(** The orchestrator never hands [process_directory] the same directory
    as source and as output: a source is below [ROOT_SOURCE_FOLDER], an
    output is [ROOT_OUTPUT_FOLDER] or below it. *)
Lemma unit_source_shape (m : fsys) (items : list string) d (p : path) :
  (d, p) ∈ subdirs_of m ROOT_SOURCE_FOLDER items ->
  p = os_path_join ROOT_SOURCE_FOLDER d.
Proof.
  unfold subdirs_of. intros (item & _ & H)%list_elem_of_omap.
  destruct (isdir m _); [|done]. by injection H as <- <-.
Qed.

Lemma unit_dirs_differ (dir_name : string) (rest : path) :
  ROOT_SOURCE_FOLDER ++ rest
  <> (if truthy dir_name then os_path_join ROOT_OUTPUT_FOLDER dir_name
      else ROOT_OUTPUT_FOLDER).
Proof. by destruct (truthy dir_name). Qed.

Lemma sim_start idx tgt w :
  sim idx tgt (set_service (inject_failure idx (service w)) w) w.
Proof. by split_and!. Qed.

(** C7: take a directory whose eligible files are [pre ++ f :: post],
    with the output directory another one than the source, and a file [f]
    that reaches the transformer.  Compare the run in which the service
    call made for [f] fails with the run in which it does not.  Both runs
    go through all the files; in the first [f] ends without a result; every
    file after [f] gets the same verdict in both runs, the same number of
    service calls is made, and at the end the two file systems hold the
    same everywhere but at the output path of [f] itself. *)
Theorem failure_is_isolated src out pre f post acc w raw :
  src <> out ->
  stat (fs w) (os_path_join src f) = Some (File (Some raw)) ->
  blank raw = false ->
  let body := process_file src out in
  let idx := calls (snd (for_each pre body acc w)) in
  let wA := set_service (inject_failure idx (service w)) w in
  exists accA wA' accB wB',
    for_each (pre ++ f :: post) body acc wA = (Ret accA, wA')
    /\ for_each (pre ++ f :: post) body acc w = (Ret accB, wB')
    /\ let vA := verdicts (printed wA wA') in
       let vB := verdicts (printed w wB') in
       length vA = length (pre ++ f :: post)
       /\ length vB = length (pre ++ f :: post)
       /\ vA !! length pre = Some NoResult
       /\ drop (S (length pre)) vA = drop (S (length pre)) vB
       /\ calls wA' = calls wB'
       /\ forall q, q <> output_path_of out f -> fs wA' !! q = fs wB' !! q.
Proof.
  intros Hne Hst Hb body idx wA. subst body.
  assert (Htgt : exists x, output_path_of out f = os_path_join out x)
    by (unfold output_path_of; eauto).
  (* the files before [f] *)
  destruct (sim_loop src out _ idx pre Hne Htgt acc acc wA w (sim_start _ _ _))
    as (accA1 & wA1 & accB1 & wB1 & EA1 & EB1 & HrunA1 & HrunB1 & HconA1
        & HconB1 & Hv1 & Hlen1 & Hsim1 & _); [by left|].
  assert (Hidx : calls wB1 = idx) by (subst idx; by rewrite HrunB1).
  assert (HstB : stat (fs wB1) (os_path_join src f) = Some (File (Some raw))).
  { rewrite stat_join in *. rewrite <- Hst.
    pose proof (loop_frame src out pre (os_path_join src f)) as Hfr.
    specialize (Hfr (fun x H => Hne (proj1 (join_inj _ _ _ _ H))) acc w).
    by rewrite HrunB1 in Hfr. }
  (* [f] itself *)
  destruct accA1 as [[sA kA] tA], accB1 as [[sB kB] tB].
  destruct (sim_failed_step src out idx f sA kA tA sB kB tB wA1 wB1 raw
              Hne Hsim1 Hidx HstB Hb)
    as (accA2 & wA2 & accB2 & wB2 & EA2 & EB2 & HrunA2 & HrunB2 & HconA2
        & HconB2 & HvA2 & Hlen2 & Hsim2 & Hlt).
  (* the files after [f] *)
  destruct (sim_loop src out _ idx post Hne Htgt accA2 accB2 wA2 wB2 Hsim2)
    as (accA3 & wA3 & accB3 & wB3 & EA3 & EB3 & HrunA3 & HrunB3 & HconA3
        & HconB3 & Hv3 & Hlen3 & Hsim3 & _); [by right|].
  exists accA3, wA3, accB3, wB3.
  rewrite !for_each_app, HrunA1, HrunB1, !for_each_cons, HrunA2, HrunB2.
  split; [done|]. split; [done|].
  rewrite (printed_app wA wA3 (EA1 ++ EA2 ++ EA3)), (printed_app w wB3 (EB1 ++ EB2 ++ EB3))
    by (rewrite ?HconA3, ?HconA2, ?HconA1, ?HconB3, ?HconB2, ?HconB1;
        by rewrite <- !app_assoc).
  cbv zeta. rewrite !verdicts_app, !length_app, Hv1, Hv3, HvA2, Hlen1, Hlen2, Hlen3.
  destruct (verdicts EB2) as [|vf [|]] eqn:HvB2; try done.
  destruct Hsim3 as (_ & Hc3 & _ & Hoff & _).
  split_and!; try done.
  - rewrite lookup_app_r by by rewrite Hlen1.
    by rewrite Hlen1, Nat.sub_diag.
  - rewrite !(app_assoc _ [_]).
    by rewrite !drop_app_length'
      by (rewrite length_app, Hlen1; simpl;
          first [apply Nat.add_1_r | symmetry; apply Nat.add_1_r]).
Qed.

Lemma failure_is_isolated_witness :
  let src := ["in"] in
  let out := ["out"] in
  let body := process_file src out in
  let w := three_world in
  let idx := calls (snd (for_each ["a.txt"] body (0, 0, 0%Q) w)) in
  let wA := set_service (inject_failure idx (service w)) w in
  exists accA wA' accB wB',
    for_each (["a.txt"] ++ "b.txt" :: ["c.txt"]) body (0, 0, 0%Q) wA
      = (Ret accA, wA')
    /\ for_each (["a.txt"] ++ "b.txt" :: ["c.txt"]) body (0, 0, 0%Q) w
       = (Ret accB, wB')
    /\ let vA := verdicts (printed wA wA') in
       let vB := verdicts (printed w wB') in
       length vA = length (["a.txt"] ++ "b.txt" :: ["c.txt"])
       /\ length vB = length (["a.txt"] ++ "b.txt" :: ["c.txt"])
       /\ vA !! length ["a.txt"] = Some NoResult
       /\ drop (S (length ["a.txt"])) vA = drop (S (length ["a.txt"])) vB
       /\ calls wA' = calls wB'
       /\ forall q, q <> output_path_of out "b.txt" -> fs wA' !! q = fs wB' !! q.
Proof.
  apply (failure_is_isolated ["in"] ["out"] ["a.txt"] "b.txt" ["c.txt"]
           (0, 0, 0%Q) three_world "second").
  - discriminate.
  - vm_compute. reflexivity.
  - reflexivity.
Defined.

(** * Further properties of the code *)

(** ** The remaining ways a file can end *)

(** Lines 84-92: when the service answers with a text, the output
    directory exists, the output name is not taken by a directory (so that
    the file can be opened) and nothing goes wrong while the text is
    written, the text of the first choice is stored under
    ["cleaned_" + filename], replacing whatever file was there,
    [success_count] grows by one and the loop goes on. *)
Theorem success_stores_text src out f rest s k t w raw text more :
  stat (fs w) (os_path_join src f) = Some (File (Some raw)) ->
  blank raw = false ->
  service w (calls w) raw = inr (Some text :: more) ->
  isdir (fs w) out = true ->
  isdir (fs w) (output_path_of out f) = false ->
  faults w (output_path_of out f) text = None ->
  exists t' w',
    process_file src out f (s, k, t) w = (Ret (S s, k, t'), w')
    /\ fs w' = <[output_path_of out f := File (Some text)]> (fs w)
    /\ calls w' = S (calls w)
    /\ verdicts (printed w w') = [Succeeded]
    /\ for_each (f :: rest) (process_file src out) (s, k, t) w
       = for_each rest (process_file src out) (S s, k, t') w'.
Proof.
  intros Hst Hb Hsvc Hout Hfree Hflt.
  destruct (process_file_run src out f s k t w) as (w' & E & Hcon & _ & _ & _ & H).
  rewrite Hst, Hb, Hsvc in H. cbn [cleaned_of fst snd] in H.
  assert (Hw : write_outcome None (output_path_of out f) text (fs w)
               = (None, <[output_path_of out f := File (Some text)]> (fs w))).
  { unfold write_outcome, open_w, output_path_of in *.
    pose proof (join_not_nil out ("cleaned_" +:+ f)).
    destruct (os_path_join out ("cleaned_" +:+ f)) as [|a p] eqn:Hp; [done|].
    rewrite <- Hp, removelast_join, Hout. rewrite Hp, Hfree. simpl.
    by rewrite insert_insert_eq. }
  rewrite Hflt, Hw in H. destruct H as (Hc & Hrun & Hfs & Hv).
  eexists _, w'. rewrite (printed_app _ _ _ Hcon). split_and!; try done.
  by rewrite for_each_cons, Hrun.
Qed.

Lemma success_stores_text_witness :
  exists t' w',
    process_file ["part2"; "alpha"] [] "a.txt" (0, 0, 0%Q) sample_world
      = (Ret (1, 0, t'), w')
    /\ fs w' = <[ ["cleaned_a.txt"] := File (Some "clean:hello") ]> (fs sample_world)
    /\ calls w' = 1
    /\ verdicts (printed sample_world w') = [Succeeded]
    /\ for_each ["a.txt"] (process_file ["part2"; "alpha"] []) (0, 0, 0%Q)
         sample_world
       = for_each [] (process_file ["part2"; "alpha"] []) (1, 0, t') w'.
Proof.
  apply (success_stores_text ["part2"; "alpha"] [] "a.txt" [] 0 0 0%Q
           sample_world "hello" "clean:hello" []).
  - vm_compute. reflexivity.
  - reflexivity.
  - reflexivity.
  - reflexivity.
  - vm_compute. reflexivity.
  - reflexivity.
Defined.

(** Lines 65-70: a file that cannot be read (it is no regular file any
    more, or its bytes do not decode) is reported and passed over: no
    counter moves, the service is not called, nothing is written, and the
    loop goes on. *)
Theorem unreadable_file_passed_over src out f rest s k t w :
  (forall raw, stat (fs w) (os_path_join src f) <> Some (File (Some raw))) ->
  exists e w',
    process_file src out f (s, k, t) w = (Ret (s, k, t), w')
    /\ fs w' = fs w /\ calls w' = calls w
    /\ verdicts (printed w w') = [ReadFailed e]
    /\ for_each (f :: rest) (process_file src out) (s, k, t) w
       = for_each rest (process_file src out) (s, k, t) w'.
Proof.
  intros Hst.
  destruct (process_file_run src out f s k t w) as (w' & E & Hcon & _ & _ & _ & H).
  destruct (stat (fs w) (os_path_join src f)) as [[|[raw|]]|];
    [|by destruct (Hst raw)|..];
    destruct H as (Hrun & Hfs & Hc & Hv);
    eexists _, w'; rewrite (printed_app _ _ _ Hcon);
    (split_and!; try done; by rewrite for_each_cons, Hrun).
Qed.

Lemma unreadable_file_passed_over_witness :
  exists e w',
    process_file ["part2"] ["out"] "alpha" (0, 0, 0%Q) sample_world
      = (Ret (0, 0, 0%Q), w')
    /\ fs w' = fs sample_world /\ calls w' = calls sample_world
    /\ verdicts (printed sample_world w') = [ReadFailed e]
    /\ for_each ["alpha"] (process_file ["part2"] ["out"]) (0, 0, 0%Q)
         sample_world
       = for_each [] (process_file ["part2"] ["out"]) (0, 0, 0%Q) w'.
Proof.
  apply (unreadable_file_passed_over ["part2"] ["out"] "alpha" [] 0 0 0%Q
           sample_world).
  intros raw H. vm_compute in H. discriminate H.
Defined.

(** Lines 35-37 and 95-96: when the service call raises, the error is
    printed, the file ends without a result, nothing is written, the
    counters of successes and skips stay, and the loop goes on; the call
    was made once and is not repeated. *)
Theorem service_error_writes_nothing src out f rest s k t w raw e :
  stat (fs w) (os_path_join src f) = Some (File (Some raw)) ->
  blank raw = false ->
  service w (calls w) raw = inl e ->
  exists w',
    process_file src out f (s, k, t) w = (Ret (s, k, (t + 0)%Q), w')
    /\ fs w' = fs w /\ calls w' = S (calls w)
    /\ verdicts (printed w w') = [NoResult]
    /\ for_each (f :: rest) (process_file src out) (s, k, t) w
       = for_each rest (process_file src out) (s, k, (t + 0)%Q) w'.
Proof.
  intros Hst Hb Hsvc.
  destruct (process_file_run src out f s k t w) as (w' & E & Hcon & _ & _ & _ & H).
  rewrite Hst, Hb, Hsvc in H. cbn [cleaned_of fst snd] in H.
  destruct H as (Hc & Hrun & Hfs & Hv).
  exists w'. rewrite (printed_app _ _ _ Hcon). split_and!; try done.
  by rewrite for_each_cons, Hrun.
Qed.

Lemma service_error_writes_nothing_witness :
  exists w',
    process_file ["in"] ["out"] "a.txt" (0, 0, 0%Q) down_world
      = (Ret (0, 0, (0 + 0)%Q), w')
    /\ fs w' = fs down_world /\ calls w' = 1
    /\ verdicts (printed down_world w') = [NoResult]
    /\ for_each ["a.txt"; "b.txt"] (process_file ["in"] ["out"]) (0, 0, 0%Q)
         down_world
       = for_each ["b.txt"] (process_file ["in"] ["out"]) (0, 0, (0 + 0)%Q) w'.
Proof.
  apply (service_error_writes_nothing ["in"] ["out"] "a.txt" ["b.txt"]
           0 0 0%Q down_world "first" (APIError "down")).
  - vm_compute. reflexivity.
  - reflexivity.
  - reflexivity.
Defined.

(** ** What a run does to the file system *)

Lemma evolves_refl (D F : path -> Prop) (m : fsys) : evolves D F m m.
Proof. intros q. by left. Qed.

Lemma evolves_trans (D F : path -> Prop) (m1 m2 m3 : fsys) :
  evolves D F m1 m2 -> evolves D F m2 m3 -> evolves D F m1 m3.
Proof.
  intros H12 H23 q.
  destruct (H12 q) as [E1|[(Hd & Hn & E1)|(Hf & Hn & s & E1)]].
  - rewrite <- E1. apply H23.
  - destruct (H23 q) as [E2|[(Hd' & Hn' & E2)|(Hf' & Hn' & s' & E2)]];
      [|congruence..].
    right. left. split_and!; congruence.
  - destruct (H23 q) as [E2|[(Hd' & Hn' & E2)|(Hf' & Hn' & s' & E2)]];
      [|congruence|].
    + right. right. split_and!; [done..|]. exists s. congruence.
    + right. right. split_and!; [done..|]. by exists s'.
Qed.

Lemma evolves_mono (D D' F F' : path -> Prop) (m m' : fsys) :
  (forall q, D q -> D' q) -> (forall q, F q -> F' q) ->
  evolves D F m m' -> evolves D' F' m m'.
Proof.
  intros HD HF H q.
  destruct (H q) as [E|[(Hd & Hn & E)|(Hf & Hn & E)]]; eauto 10.
Qed.

Lemma bind_evolves (D F : path -> Prop) {A B} (m : M A) (k : A -> M B) w :
  evolves D F (fs w) (fs (snd (m w))) ->
  (forall a w1, m w = (Ret a, w1) -> evolves D F (fs w1) (fs (snd (k a w1)))) ->
  evolves D F (fs w) (fs (snd (bind m k w))).
Proof.
  intros Hm Hk. unfold bind. destruct (m w) as [[a|e] w1] eqn:Hrun; [|done].
  eapply evolves_trans; [exact Hm|]. by apply Hk.
Qed.

Lemma for_each_evolves (D F : path -> Prop) {A S} (l : list A) (body : A -> S -> M S) :
  (forall x, x ∈ l -> forall s w, evolves D F (fs w) (fs (snd (body x s w)))) ->
  forall s w, evolves D F (fs w) (fs (snd (for_each l body s w))).
Proof.
  induction l as [|x l IH]; intros Hbody s w; [apply evolves_refl|].
  rewrite for_each_cons.
  pose proof (Hbody x ltac:(left) s w) as Hx.
  destruct (body x s w) as [[s'|e] w1]; [|done].
  eapply evolves_trans; [exact Hx|]. apply IH.
  intros y Hy. apply Hbody. by right.
Qed.

Lemma makedirs_from_evolves (rest above : path) (m m' : fsys) :
  makedirs_from above rest m = Some m' ->
  evolves
    (fun q => above <> q /\ above `prefix_of` q /\ q `prefix_of` above ++ rest)
    nowhere m m'.
Proof.
  revert above m. induction rest as [|x rest IH]; intros above m; simpl.
  { intros [= <-]. apply evolves_refl. }
  assert (Hsub : forall q,
            above ++ [x] <> q /\ above ++ [x] `prefix_of` q
            /\ q `prefix_of` (above ++ [x]) ++ rest ->
            above <> q /\ above `prefix_of` q
            /\ q `prefix_of` above ++ x :: rest).
  { intros q (_ & [k ->] & Hq). rewrite <- app_assoc in *. split_and!.
    - intros H. apply (f_equal length) in H. rewrite length_app in H.
      simpl in H. lia.
    - by eexists.
    - by rewrite <- app_assoc in Hq. }
  destruct (m !! (above ++ [x])) as [[|c]|] eqn:Hp; [|done|]; intros Hmk.
  - eapply evolves_mono; [exact Hsub|done|]. by apply IH.
  - eapply evolves_trans.
    + intros q. destruct (decide (q = above ++ [x])) as [->|Hne].
      * right. left. split_and!; [|by eexists|by exists rest; rewrite <- app_assoc
                                  |done|by rewrite lookup_insert_eq].
        intros H. apply (f_equal length) in H. rewrite length_app in H.
        simpl in H. lia.
      * left. by rewrite lookup_insert_ne.
    + eapply evolves_mono; [exact Hsub|done|]. by apply IH.
Qed.

Lemma makedirs_evolves (out : path) (m m' : fsys) :
  makedirs out m = Some m' -> evolves (along out) nowhere m m'.
Proof.
  intros H%makedirs_from_evolves.
  eapply evolves_mono; [|done|exact H].
  intros q (Hq & _ & Hpre). split; [congruence|done].
Qed.

Lemma write_outcome_evolves (flt : fault) (p : path) (s : string)
    (m : fsys) (r : option exn) (m' : fsys) :
  write_outcome flt p s m = (r, m') -> evolves nowhere (eq p) m m'.
Proof.
  intros Hw q.
  destruct (write_outcome_stored _ _ _ _ _ _ Hw)
    as [->|(Hnil & Hnd & s' & ->)]; [by left|].
  destruct (decide (p = q)) as [<-|Hne]; [|left; by rewrite lookup_insert_ne].
  right. right. split_and!; [done| |exists s'; by rewrite lookup_insert_eq].
  intros Hd. destruct p; [done|].
  unfold isdir, stat in Hnd. by rewrite Hd in Hnd.
Qed.

(** The loop body stores at most one text, at the output path of its file. *)
Lemma process_file_evolves src out f acc w :
  evolves nowhere (eq (output_path_of out f))
    (fs w) (fs (snd (process_file src out f acc w))).
Proof.
  destruct acc as [[s k] t].
  destruct (process_file_run src out f s k t w) as (w' & E & _ & _ & _ & _ & H).
  assert (exists acc',
            process_file src out f (s, k, t) w = (Ret acc', w')
            /\ (fs w' = fs w
                \/ exists flt text r,
                     write_outcome flt (output_path_of out f) text (fs w)
                     = (r, fs w'))) as (acc' & Hrun & Hfs).
  { destruct (stat (fs w) (os_path_join src f)) as [[|[raw|]]|].
    1,3,4: destruct H as (Hrun & Hfs & _); eauto.
    destruct (blank raw); [destruct H as (Hrun & Hfs & _); eauto|].
    cbv zeta in H. destruct H as (_ & H).
    destruct (fst _) as [text|];
      [destruct (write_outcome _ _ _ _) as [[e|] m] eqn:Hw|];
      destruct H as (Hrun & Hfs & _); eauto;
      rewrite <- Hfs in Hw; eauto 10. }
  rewrite Hrun. simpl.
  destruct Hfs as [->|(flt & text & r & Hw)]; [apply evolves_refl|].
  by apply write_outcome_evolves in Hw.
Qed.

Lemma files_evolve src out files acc w :
  evolves nowhere (cleaned_in out files)
    (fs w) (fs (snd (for_each files (process_file src out) acc w))).
Proof.
  apply for_each_evolves. intros f Hf s w1.
  eapply evolves_mono; [done| |apply process_file_evolves].
  intros q <-. by exists f.
Qed.

(** [process_directory], however it ends, has made directories only along
    [output_dir] and stored texts only at the output paths of the eligible
    files of [source_dir]. *)
Lemma process_directory_evolves src out w :
  evolves (along out)
    (cleaned_in out (txt_files_of (fs w) src (entries (fs w) src)))
    (fs w) (fs (snd (process_directory src out w))).
Proof.
  unfold process_directory, os_listdir. run.
  destruct (isdir (fs w) src); [simpl|apply evolves_refl].
  destruct (txt_files_of (fs w) src (entries (fs w) src)) as [|f files] eqn:Hfiles;
    [apply evolves_refl|].
  unfold os_makedirs. simpl.
  destruct (makedirs out (fs w)) as [m|] eqn:Hmk; [|apply evolves_refl].
  set (w1 := set_fs m _).
  pose proof (files_evolve src out (f :: files) (0, 0, 0%Q) w1) as Hloop.
  destruct (for_each (f :: files) (process_file src out) (0, 0, 0%Q) w1)
    as [[[[s k] t]|e] w2]; simpl in *;
    (eapply evolves_trans;
     [eapply evolves_mono; [| |apply (makedirs_evolves _ _ _ Hmk)]; done
     |eapply evolves_mono; [| |exact Hloop]; done]).
Qed.

(** Lines 43-44, 57 and 86-90: whatever [process_directory] changes in the
    file system is a directory it made along [output_dir] where nothing
    was, or a text it stored at [output_dir/cleaned_<f>] for an eligible
    file [f] of [source_dir]; this holds also for a run that raises. *)
Theorem directory_run_changes src out w q :
  fs (snd (process_directory src out w)) !! q <> fs w !! q ->
  (q `prefix_of` out /\ fs w !! q = None
   /\ fs (snd (process_directory src out w)) !! q = Some Dir)
  \/ exists f text,
       f ∈ txt_files_of (fs w) src (entries (fs w) src)
       /\ q = os_path_join out ("cleaned_" +:+ f)
       /\ fs (snd (process_directory src out w)) !! q = Some (File (Some text)).
Proof.
  intros Hne.
  destruct (process_directory_evolves src out w q)
    as [E|[((_ & Hpre) & Hn & E)|((f & Hf & ->) & _ & text & E)]]; eauto 10.
  done.
Qed.

Lemma directory_run_changes_witness :
  (["out"] `prefix_of` ["out"] /\ fs sample_world !! ["out"] = None
   /\ fs (snd (process_directory ["part2"; "alpha"] ["out"] sample_world))
        !! ["out"] = Some Dir)
  \/ exists f text,
       f ∈ txt_files_of (fs sample_world) ["part2"; "alpha"]
             (entries (fs sample_world) ["part2"; "alpha"])
       /\ ["out"] = os_path_join ["out"] ("cleaned_" +:+ f)
       /\ fs (snd (process_directory ["part2"; "alpha"] ["out"] sample_world))
            !! ["out"] = Some (File (Some text)).
Proof.
  apply (directory_run_changes ["part2"; "alpha"] ["out"] sample_world ["out"]).
  intros H. vm_compute in H. discriminate H.
Defined.

Lemma along_output (dir_name : string) (q : path) :
  along (if truthy dir_name then os_path_join ROOT_OUTPUT_FOLDER dir_name
         else ROOT_OUTPUT_FOLDER) q ->
  output_dirs q.
Proof.
  unfold along, output_dirs, os_path_join, ROOT_OUTPUT_FOLDER.
  intros (Hq & k & Hk). destruct (truthy dir_name); simpl in Hk.
  - destruct q as [|a [|b [|c q]]]; [done|..]; simpl in Hk; simplify_eq;
      eauto.
  - destruct q as [|a [|b q]]; [done|..]; simpl in Hk; simplify_eq; eauto.
Qed.

Lemma cleaned_in_output (dir_name : string) files (q : path) :
  cleaned_in (if truthy dir_name then os_path_join ROOT_OUTPUT_FOLDER dir_name
              else ROOT_OUTPUT_FOLDER) files q ->
  output_files q.
Proof.
  intros (f & _ & ->). unfold output_files.
  destruct (truthy dir_name); eauto.
Qed.

Lemma process_unit_evolves u acc w :
  evolves output_dirs output_files (fs w) (fs (snd (process_unit u acc w))).
Proof.
  destruct u as [dir_name source_dir]. unfold process_unit. run.
  set (out := if truthy dir_name then _ else _).
  set (w1 := set_ticks _ _).
  pose proof (process_directory_evolves source_dir out w1) as H.
  destruct (process_directory source_dir out w1) as [[[[[s k] n] t]|e] w2];
    simpl in *;
    (eapply evolves_mono; [apply along_output|apply cleaned_in_output|exact H]).
Qed.

Lemma process_root_directory_evolves w :
  evolves output_dirs output_files
    (fs w) (fs (snd (process_root_directory w))).
Proof.
  unfold process_root_directory, os_path_exists, os_listdir. run.
  destruct (exists_ (fs w) ROOT_SOURCE_FOLDER); [simpl|apply evolves_refl].
  destruct (isdir (fs w) ROOT_SOURCE_FOLDER); [simpl|apply evolves_refl].
  set (units := subdirs_of _ _ _).
  assert (Hloop : forall us w1,
            fs w1 = fs w ->
            evolves output_dirs output_files (fs w)
              (fs (snd (for_each us process_unit (Totals 0 0 0 0%Q []) w1)))).
  { intros us w1 <-. apply for_each_evolves. intros. apply process_unit_evolves. }
  assert (Hrest : forall us w1,
            fs w1 = fs w ->
            evolves output_dirs output_files (fs w)
              (fs (snd (match for_each us process_unit (Totals 0 0 0 0%Q []) w1
                        with
                        | (Ret sums, w2) =>
                            let (o, w3) := time_time w2 in
                            match o with
                            | Ret t =>
                                report sums (t - clock w (ticks w))%Q w3
                            | Raise e => (Raise e, w3)
                            end
                        | (Raise e, w2) => (Raise e, w2)
                        end)))).
  { intros us w1 Hw1. pose proof (Hloop us w1 Hw1) as H.
    destruct (for_each us process_unit _ w1) as [[sums|e] w2]; [|done].
    unfold time_time. simpl in *.
    set (w3 := set_ticks _ w2). set (el := (_ - _)%Q).
    destruct (decide (0 < total_success sums
                      /\ gt (total_api_time sums) 0 = true
                      /\ Qeq_bool el 0 = true)) as [(Hs & Ha & Hz)|Hok].
    - (* the division by a zero elapsed time; nothing is written either way *)
      assert (fs (snd (report sums el w3)) = fs w3) as ->; [|done].
      unfold report. rewrite !bind_print. unfold bind at 1.
      rewrite report_dirs_run. rewrite !bind_print. unfold bind at 1.
      apply Nat.ltb_lt in Hs. rewrite Hs.
      rewrite !(bind_truediv _ (of_int _))
        by (apply of_int_nonzero; by apply Nat.ltb_lt).
      rewrite bind_print, bind_truediv
        by (apply of_int_nonzero; by apply Nat.ltb_lt).
      rewrite bind_print, Ha. unfold bind, truediv. by rewrite Hz.
    - rewrite report_run; [done|]. intros Hs Ha.
      destruct (Qeq_bool el 0) eqn:Hz; [|done]. by destruct Hok. }
  destruct units as [|u us]; simpl; apply Hrest; done.
Qed.

Lemma main_evolves w :
  evolves output_dirs output_files (fs w) (fs (snd (main w))).
Proof.
  unfold main, module_body, OpenAI, os_makedirs. run.
  destruct (credentials w); [simpl|apply evolves_refl].
  destruct (makedirs ROOT_OUTPUT_FOLDER (fs w)) as [m|] eqn:Hmk;
    [simpl|apply evolves_refl].
  eapply evolves_trans; [|apply process_root_directory_evolves]. simpl.
  eapply evolves_mono; [| |apply (makedirs_evolves _ _ _ Hmk)]; [|done].
  apply (along_output "").
Qed.

Lemma output_dirs_below (q : path) :
  output_dirs q -> ROOT_OUTPUT_FOLDER `prefix_of` q.
Proof. intros [->|[d ->]]; [by exists []|by exists [d]]. Qed.

Lemma output_files_below (q : path) :
  output_files q -> ROOT_OUTPUT_FOLDER `prefix_of` q.
Proof. intros [[f ->]|(d & f & ->)]; by eexists. Qed.

(** The whole script, however it ends, changes nothing outside the output
    root: the source tree, and every other path that is not
    [ROOT_OUTPUT_FOLDER] or below it, holds after the run what it held
    before. *)
Theorem run_changes_only_output_tree w q :
  ~ ROOT_OUTPUT_FOLDER `prefix_of` q ->
  fs (snd (main w)) !! q = fs w !! q.
Proof.
  intros Hq.
  destruct (main_evolves w q) as [E|[(Hd & _)|(Hf & _)]]; [done|..].
  - by apply output_dirs_below in Hd.
  - by apply output_files_below in Hf.
Qed.

Lemma run_changes_only_output_tree_witness :
  fs (snd (main sample_world)) !! ["part2"; "alpha"; "a.txt"]
  = fs sample_world !! ["part2"; "alpha"; "a.txt"].
Proof.
  apply (run_changes_only_output_tree sample_world ["part2"; "alpha"; "a.txt"]).
  intros [k H]. discriminate H.
Defined.

(** The script removes nothing and turns no directory into a file or a
    file into a directory: what exists before the run exists after it, with
    the same kind (the text of an earlier output file may be replaced). *)
Theorem run_keeps_what_exists w q n :
  fs w !! q = Some n ->
  exists n', fs (snd (main w)) !! q = Some n' /\ (n' = Dir <-> n = Dir).
Proof.
  intros Hn.
  destruct (main_evolves w q) as [E|[(_ & Hnone & _)|(_ & Hnd & s & E)]].
  - exists n. by rewrite E.
  - congruence.
  - exists (File (Some s)). split; [done|]. split; [done|]. congruence.
Qed.

Lemma run_keeps_what_exists_witness :
  exists n',
    fs (snd (main blocked_world)) !! ["cleaned_txt_part2"; "cleaned_a.txt"]
    = Some n' /\ (n' = Dir <-> Dir = Dir).
Proof.
  apply (run_keeps_what_exists blocked_world
           ["cleaned_txt_part2"; "cleaned_a.txt"] Dir).
  vm_compute. reflexivity.
Defined.

(** ** Which files are eligible *)

Lemma child_of_spec (d q : path) (x : string) :
  child_of d q = Some x <-> q = os_path_join d x.
Proof.
  unfold os_path_join. revert q. induction d as [|a d IH]; intros q; simpl.
  - destruct q as [|b [|c q]]; split; intros H; simplify_eq; done.
  - destruct q as [|b q]; [split; intros H; simplify_eq|].
    destruct (String.eqb_spec a b) as [->|Hne].
    + rewrite IH. split; intros H; simplify_eq; done.
    + split; intros H; simplify_eq.
Qed.

(** The listing of a directory: the names of what is directly inside. *)
Lemma entries_spec (m : fsys) (d : path) (x : string) :
  x ∈ entries m d <-> exists n, m !! os_path_join d x = Some n.
Proof.
  unfold entries. rewrite list_elem_of_omap. split.
  - intros ([q n] & Hin & Hc). apply elem_of_map_to_list in Hin.
    apply child_of_spec in Hc. simpl in Hc. subst q. eauto.
  - intros (n & Hn). exists (os_path_join d x, n). split.
    + by apply elem_of_map_to_list.
    + by apply child_of_spec.
Qed.

Lemma NoDup_omap_inj {A B} (g : A -> option B) (l : list A) :
  (forall x y b, x ∈ l -> y ∈ l -> g x = Some b -> g y = Some b -> x = y) ->
  NoDup l -> NoDup (omap g l).
Proof.
  intros Hinj Hnd. induction Hnd as [|x l Hx Hnd IH]; simpl; [constructor|].
  assert (IH' : NoDup (omap g l)).
  { apply IH. intros y z b Hy Hz. apply Hinj; by right. }
  destruct (g x) as [b|] eqn:Hg; [|done]. constructor; [|done].
  intros (y & Hy & Hgy)%list_elem_of_omap.
  assert (x = y) as -> by (eapply Hinj; [left|by right|done..]). done.
Qed.

Lemma entries_NoDup (m : fsys) (d : path) : NoDup (entries m d).
Proof.
  apply NoDup_omap_inj; [|apply NoDup_map_to_list].
  intros [q1 n1] [q2 n2] b H1%elem_of_map_to_list H2%elem_of_map_to_list
    Hc1%child_of_spec Hc2%child_of_spec.
  simpl in *. subst. congruence.
Qed.

Lemma substring_all (s : string) : substring 0 (String.length s) s = s.
Proof. induction s as [|c s IH]; simpl; [done|by rewrite IH]. Qed.

Lemma substring_suffix (p s : string) :
  substring (String.length p) (String.length s) (p +:+ s) = s.
Proof. induction p as [|c p IH]; simpl; [apply substring_all|done]. Qed.

Lemma substring_split (s : string) (k : nat) :
  k <= String.length s ->
  s = substring 0 k s +:+ substring k (String.length s - k) s.
Proof.
  revert k. induction s as [|c s IH]; intros k Hk; simpl in *.
  - by destruct k.
  - destruct k as [|k]; simpl.
    + by rewrite substring_all.
    + change (String c s = String c (substring 0 k s
                +:+ substring k (String.length s - k) s)).
      f_equal. apply IH. lia.
Qed.

Lemma length_append (p s : string) :
  String.length (p +:+ s) = String.length p + String.length s.
Proof. induction p as [|c p IH]; simpl; [done|by rewrite IH]. Qed.

(** [s.endswith(suffix)] holds exactly when [s] is some text followed by
    [suffix]. *)
Lemma endswith_spec (s suffix : string) :
  endswith s suffix = true <-> exists stem, s = stem +:+ suffix.
Proof.
  unfold endswith. rewrite andb_true_iff, Nat.leb_le, String.eqb_eq. split.
  - intros [Hle Hsub].
    exists (substring 0 (String.length s - String.length suffix) s).
    pose proof (substring_split s (String.length s - String.length suffix))
      as H.
    replace (String.length s - (String.length s - String.length suffix))
      with (String.length suffix) in H by lia.
    rewrite Hsub in H. apply H. lia.
  - intros [stem ->]. rewrite length_append. split; [lia|].
    replace (String.length stem + String.length suffix - String.length suffix)
      with (String.length stem) by lia.
    apply substring_suffix.
Qed.

(** Lines 43-44: the files [process_directory] works on are exactly the
    regular files directly inside [source_dir] whose name is some text
    followed by [.txt] (the text may be empty, the case of the letters
    counts); a directory of such a name, and a file further down, are not
    among them; and no file is listed twice. *)
Theorem eligible_files (m : fsys) (src : path) :
  NoDup (txt_files_of m src (entries m src))
  /\ forall f,
       f ∈ txt_files_of m src (entries m src)
       <-> (exists stem, f = stem +:+ ".txt")
           /\ exists content, m !! os_path_join src f = Some (File content).
Proof.
  split.
  - unfold txt_files_of. apply NoDup_ListNoDup, List.NoDup_filter,
      NoDup_ListNoDup, entries_NoDup.
  - intros f. unfold txt_files_of.
    rewrite list_elem_of_In, filter_In, <- list_elem_of_In, entries_spec.
    rewrite andb_true_iff, endswith_spec. unfold isfile.
    rewrite stat_join. split.
    + intros (_ & Hext & Hfile). split; [done|].
      destruct (m !! os_path_join src f) as [[|c]|]; eauto; done.
    + intros (Hext & c & Hc). rewrite Hc. eauto.
Qed.

(** ** The loop over the directories *)

Lemma process_directory_counts src out w s k n t w' :
  process_directory src out w = (Ret (s, k, n, t), w') -> s + k <= n.
Proof.
  unfold process_directory, os_listdir. run.
  destruct (isdir (fs w) src); [simpl|done].
  destruct (txt_files_of (fs w) src (entries (fs w) src)) as [|f files].
  { simpl. intros [= <- <- <- _ _]. lia. }
  unfold os_makedirs. simpl.
  destruct (makedirs out (fs w)) as [m|]; [|done].
  set (w1 := set_fs m _).
  destruct (files_run src out (f :: files) 0 0 0%Q w1)
    as (s' & k' & t' & w2 & E & -> & _ & Hlen & -> & -> & _).
  intros [= <- <- <- _ _].
  pose proof (verdicts_partition (verdicts E)) as Hp.
  simpl in Hlen. lia.
Qed.

(** Lines 136-165, read off the result of [process_directory]. *)
Lemma process_unit_run dir_name source_dir acc w :
  let w1 := set_ticks (S (ticks w))
              (set_console (console w ++ [EvUnit (unit_label dir_name)]) w) in
  match process_directory source_dir (output_dir_of dir_name) w1 with
  | (Ret (success, skip, file_count, api_time), w2) =>
      exists dir_elapsed w3,
        process_unit (dir_name, source_dir) acc w
        = (Ret (Totals (total_success acc + success)
                  (total_skip acc + skip) (total_files acc + file_count)
                  (total_api_time acc + api_time)%Q
                  (dir_results acc ++
                     [DirResult (unit_label dir_name) success skip file_count
                        dir_elapsed api_time])), w3)
        /\ fs w3 = fs w2 /\ calls w3 = calls w2
  | (Raise e, w2) => process_unit (dir_name, source_dir) acc w = (Raise e, w2)
  end.
Proof.
  unfold process_unit, output_dir_of. run.
  destruct (process_directory _ _ _) as [[[[[s k] n] t]|e] w2]; simpl; eauto.
Qed.

Lemma sum_of_app f rs1 rs2 : sum_of f (rs1 ++ rs2) = sum_of f rs1 + sum_of f rs2.
Proof. unfold sum_of. by rewrite List.map_app, list_sum_app. Qed.

Lemma api_sum_app rs1 rs2 : (api_sum (rs1 ++ rs2) == api_sum rs1 + api_sum rs2)%Q.
Proof.
  unfold api_sum. induction rs1 as [|r rs1 IH]; simpl; [ring|].
  rewrite IH. ring.
Qed.

(** The loop keeps the totals equal to the sums of the directory results
    and appends one result for each directory, in order. *)
Lemma units_run units acc w sums w' :
  for_each units process_unit acc w = (Ret sums, w') ->
  tallied acc ->
  tallied sums
  /\ List.map r_name (dir_results sums)
     = List.map r_name (dir_results acc)
       ++ List.map (fun u => unit_label (fst u)) units.
Proof.
  revert acc w. induction units as [|[d src] units IH]; intros acc w.
  { intros [= <- <-] Hacc. by rewrite app_nil_r. }
  rewrite for_each_cons. intros Hrun Hacc.
  pose proof (process_unit_run d src acc w) as Hu. cbv zeta in Hu.
  destruct (process_directory _ _ _) as [[[[[s k] n] t]|e] w2] eqn:Hdir.
  - destruct Hu as (el & w3 & Hu & _). rewrite Hu in Hrun.
    apply IH in Hrun as [Hsums Hnames].
    + split; [done|]. rewrite Hnames. simpl.
      by rewrite List.map_app, <- app_assoc.
    + apply process_directory_counts in Hdir.
      destruct Hacc as (H1 & H2 & H3 & H4 & H5). unfold tallied. simpl.
      rewrite !sum_of_app, api_sum_app, <- H1, <- H2, <- H3, <- H4.
      split_and!; try (unfold sum_of; simpl; lia);
        try (unfold api_sum; simpl; ring);
        try (apply Forall_app; split; [done|]; by constructor).
  - rewrite Hu in Hrun. done.
Qed.

Lemma tallied_start : tallied (Totals 0 0 0 0%Q []).
Proof. unfold tallied. simpl. by split_and!. Qed.

(** Lines 128-163: when the loop over the directories ends, there is one
    directory result for each unit, in the order of the units and under
    its label, and every total is the sum of the corresponding entries of
    these results. *)
Theorem totals_are_sums units w sums w' :
  for_each units process_unit (Totals 0 0 0 0%Q []) w = (Ret sums, w') ->
  List.map r_name (dir_results sums)
  = List.map (fun u => unit_label (fst u)) units
  /\ total_success sums = sum_of r_success (dir_results sums)
  /\ total_skip sums = sum_of r_skip (dir_results sums)
  /\ total_files sums = sum_of r_total (dir_results sums)
  /\ (total_api_time sums == api_sum (dir_results sums))%Q.
Proof.
  intros Hrun.
  destruct (units_run _ _ _ _ _ Hrun tallied_start)
    as ((H1 & H2 & H3 & H4 & _) & Hnames). done.
Qed.

Lemma totals_are_sums_witness :
  let sums := totals_of sample_units sample_world in
  List.map r_name (dir_results sums) = ["beta"; "alpha"]
  /\ total_success sums = sum_of r_success (dir_results sums)
  /\ total_skip sums = sum_of r_skip (dir_results sums)
  /\ total_files sums = sum_of r_total (dir_results sums)
  /\ (total_api_time sums == api_sum (dir_results sums))%Q.
Proof.
  apply (totals_are_sums sample_units sample_world
           (totals_of sample_units sample_world)
           (snd (for_each sample_units process_unit (Totals 0 0 0 0%Q [])
                   sample_world))).
  vm_compute. reflexivity.
Defined.

Lemma rate_bounds (s n : nat) :
  0 < n -> s <= n -> (0 <= of_int s / of_int n * 100 <= 100)%Q.
Proof.
  intros Hn Hs. unfold of_int.
  assert (Hz : (0 <= Z.of_nat s <= Z.of_nat n)%Z /\ (0 < Z.of_nat n)%Z) by lia.
  revert Hz. generalize (Z.of_nat s) (Z.of_nat n). clear. intros a b [Ha Hb].
  destruct b as [|p|p]; [lia| |lia].
  unfold Qle, Qdiv, Qmult, Qinv. simpl. split; nia.
Qed.

(** Lines 175-179, with the counts of lines 146-157: a success rate shown
    for a directory of a finished loop lies between 0 and 100, and the
    successes it is computed from are no more than the files. *)
Theorem success_rate_within_bounds units w sums w' r w0 name s n rate time :
  for_each units process_unit (Totals 0 0 0 0%Q []) w = (Ret sums, w') ->
  r ∈ dir_results sums ->
  EvDirRate name s n rate time ∈ printed w0 (snd (report_dir r tt w0)) ->
  s <= n /\ (0 <= rate <= 100)%Q.
Proof.
  intros Hrun Hr Hin.
  destruct (units_run _ _ _ _ _ Hrun tallied_start) as ((_ & _ & _ & _ & Hall) & _).
  rewrite Forall_forall in Hall. specialize (Hall r Hr).
  rewrite report_dir_run in Hin. simpl in Hin.
  rewrite (printed_app w0 _ [dir_line r]) in Hin by done.
  apply list_elem_of_singleton in Hin. unfold dir_line in Hin.
  destruct (Nat.ltb 0 (r_total r)) eqn:Hn; [|done].
  apply Nat.ltb_lt in Hn. injection Hin as -> -> -> -> ->.
  split; [lia|]. apply rate_bounds; lia.
Qed.

Lemma success_rate_within_bounds_witness :
  1 <= 2 /\ (0 <= of_int 1 / of_int 2 * 100 <= 100)%Q.
Proof.
  apply (success_rate_within_bounds sample_units sample_world
           (totals_of sample_units sample_world)
           (snd (for_each sample_units process_unit (Totals 0 0 0 0%Q [])
                   sample_world))
           (DirResult "alpha" 1 1 2 (sample_clock 12 - sample_clock 6)%Q
              (0 + (sample_clock 10 - sample_clock 9))%Q)
           sample_world "alpha" 1 2 (of_int 1 / of_int 2 * 100)%Q
           (sample_clock 12 - sample_clock 6)%Q).
  - vm_compute. reflexivity.
  - vm_compute. right. left.
  - vm_compute. left.
Defined.

(** ** Errors that end the run *)

(** Line 57 is outside every [try]: when a directory has eligible files
    and its output directory cannot be made (a regular file is in the
    way), the error leaves [process_directory] and the loop of lines
    135-165; the directories after it are not processed, no file of this
    one is read and the service is not called. *)
Theorem blocked_output_stops_run d src rest acc w :
  isdir (fs w) src = true ->
  txt_files_of (fs w) src (entries (fs w) src) <> [] ->
  makedirs (output_dir_of d) (fs w) = None ->
  exists w',
    for_each ((d, src) :: rest) process_unit acc w = (Raise OSError, w')
    /\ fs w' = fs w /\ calls w' = calls w
    /\ printed w w'
       = [EvUnit (unit_label d);
          EvDirFound (os_path_basename src)
            (length (txt_files_of (fs w) src (entries (fs w) src)))].
Proof.
  intros Hdir Hfiles Hmk. rewrite for_each_cons.
  pose proof (process_unit_run d src acc w) as Hu. cbv zeta in Hu.
  set (w1 := set_ticks _ _) in Hu.
  assert (Hrun : process_directory src (output_dir_of d) w1
                 = (Raise OSError,
                    set_console
                      (console w1 ++
                       [EvDirFound (os_path_basename src)
                          (length (txt_files_of (fs w) src (entries (fs w) src)))])
                      w1)).
  { unfold process_directory, os_listdir, os_makedirs. run.
    rewrite Hdir. simpl.
    destruct (txt_files_of (fs w) src (entries (fs w) src)); [done|].
    simpl. by rewrite Hmk. }
  rewrite Hrun in Hu. rewrite Hu. eexists. split; [reflexivity|].
  simpl. split_and!; try done. apply printed_app. simpl.
  by rewrite <- app_assoc.
Qed.

Lemma blocked_output_stops_run_witness :
  exists w',
    for_each [("alpha", ["part2"; "alpha"]); ("beta", ["part2"; "beta"])]
      process_unit (Totals 0 0 0 0%Q []) clash_world = (Raise OSError, w')
    /\ fs w' = fs clash_world /\ calls w' = calls clash_world
    /\ printed clash_world w'
       = [EvUnit (unit_label "alpha");
          EvDirFound (os_path_basename ["part2"; "alpha"])
            (length (txt_files_of (fs clash_world) ["part2"; "alpha"]
                       (entries (fs clash_world) ["part2"; "alpha"])))].
Proof.
  apply (blocked_output_stops_run "alpha" ["part2"; "alpha"]
           [("beta", ["part2"; "beta"])] (Totals 0 0 0 0%Q []) clash_world).
  - vm_compute. reflexivity.
  - vm_compute. discriminate.
  - vm_compute. reflexivity.
Defined.

(** Lines 103-114: the test of line 103 is passed by anything that
    exists; when [ROOT_SOURCE_FOLDER] is a regular file, the listing of
    line 114 raises after the two opening lines were printed, and the
    script ends with a non-zero status, having processed nothing. *)
Theorem root_file_raises w content :
  fs w !! ROOT_SOURCE_FOLDER = Some (File content) ->
  exists w',
    process_root_directory w = (Raise OSError, w')
    /\ exit_status (fst (process_root_directory w)) = 1%Z
    /\ fs w' = fs w /\ calls w' = calls w
    /\ printed w w' = [EvStart; EvRule].
Proof.
  intros Hroot.
  assert (Hex : exists_ (fs w) ROOT_SOURCE_FOLDER = true)
    by (unfold exists_, stat, ROOT_SOURCE_FOLDER in *; by rewrite Hroot).
  assert (Hnd : isdir (fs w) ROOT_SOURCE_FOLDER = false)
    by (unfold isdir, stat, ROOT_SOURCE_FOLDER in *; by rewrite Hroot).
  unfold process_root_directory, os_path_exists, os_listdir,
    bind, print, time_time.
  rewrite Hex. cbn [negb fs set_console set_ticks]. rewrite Hnd.
  eexists. split; [reflexivity|]. split_and!; try done.
  apply printed_app. simpl. by rewrite <- app_assoc.
Qed.

Lemma root_file_raises_witness :
  exists w',
    process_root_directory flat_world = (Raise OSError, w')
    /\ exit_status (fst (process_root_directory flat_world)) = 1%Z
    /\ fs w' = fs flat_world /\ calls w' = calls flat_world
    /\ printed flat_world w' = [EvStart; EvRule].
Proof.
  apply (root_file_raises flat_world (Some "not a directory")).
  vm_compute. reflexivity.
Defined.

(** ** The duration in minutes *)

Lemma gt_spec (a b : Q) : gt a b = true <-> (b < a)%Q.
Proof.
  unfold gt. rewrite negb_true_iff, <- not_true_iff_false, Qle_bool_iff.
  split; [apply Qnot_le_lt|apply Qlt_not_le].
Qed.

Lemma minutes_split (t : Q) :
  (60 < t)%Q ->
  let m := Qfloor (t / 60) in
  let s := (t - 60 * inject_Z m)%Q in
  (1 <= m)%Z /\ (0 <= s)%Q /\ (s < 60)%Q /\ (inject_Z m * 60 + s == t)%Q.
Proof.
  intros Ht m s. subst s.
  pose proof (Qfloor_le (t / 60)) as Hlo.
  pose proof (Qlt_floor (t / 60)) as Hhi. fold m in Hlo, Hhi.
  assert (Hx : (t / 60 * 60 == t)%Q) by (field).
  rewrite inject_Z_plus in Hhi.
  set (x := (t / 60)%Q) in *. set (im := inject_Z m) in *.
  change (inject_Z 1) with 1%Q in Hhi.
  assert (Hm : (1 <= m)%Z).
  { destruct (Z_lt_le_dec m 1) as [Hlt|]; [exfalso|done].
    assert (Him : (im <= 0)%Q).
    { subst im. change 0%Q with (inject_Z 0). rewrite <- Zle_Qle. lia. }
    lra. }
  split_and!; [done|lra..].
Qed.

Lemma EvMinutes_in_report sums t m s :
  EvMinutes m s ∈ report_lines sums t -> EvMinutes m s ∈ minutes_line t.
Proof.
  unfold report_lines. intros Hin.
  repeat (apply elem_of_app in Hin as [Hin|Hin]); try done.
  - repeat (apply elem_of_cons in Hin as [Hin|Hin]; [done|]).
    by apply elem_of_nil in Hin.
  - apply list_elem_of_In, in_map_iff in Hin as (r & Hr & _).
    unfold dir_line in Hr. by destruct (Nat.ltb 0 (r_total r)).
  - repeat (apply elem_of_cons in Hin as [Hin|Hin]; [done|]).
    by apply elem_of_nil in Hin.
  - unfold rate_lines in Hin.
    destruct (Nat.ltb 0 (total_success sums)); [|by apply elem_of_nil in Hin].
    destruct (gt (total_api_time sums) 0);
      repeat (apply elem_of_cons in Hin as [Hin|Hin]; [done|]);
      by apply elem_of_nil in Hin.
  - repeat (apply elem_of_cons in Hin as [Hin|Hin]; [done|]).
    by apply elem_of_nil in Hin.
  - repeat (apply elem_of_cons in Hin as [Hin|Hin]; [done|]).
    by apply elem_of_nil in Hin.
Qed.

(** Lines 199-203: a run of more than 60 seconds also shows its duration
    as whole minutes and seconds; the minutes are at least 1, the seconds
    lie in [0, 60) and together they make up the duration.  A run of 60
    seconds or less shows no such line. *)
Theorem minutes_and_seconds sums total_elapsed w :
  (0 < total_success sums -> gt (total_api_time sums) 0 = true ->
   Qeq_bool total_elapsed 0 = false) ->
  let E := printed w (snd (report sums total_elapsed w)) in
  if gt total_elapsed 60 then
    exists m s,
      EvMinutes m s ∈ E
      /\ (1 <= m)%Z /\ (0 <= s)%Q /\ (s < 60)%Q
      /\ (inject_Z m * 60 + s == total_elapsed)%Q
  else forall m s, EvMinutes m s ∉ E.
Proof.
  intros Hdiv E. subst E. rewrite (report_run _ _ _ Hdiv). simpl.
  rewrite (printed_app w _ (report_lines sums total_elapsed)) by done.
  destruct (gt total_elapsed 60) eqn:Hgt.
  - apply gt_spec in Hgt.
    destruct (minutes_split total_elapsed Hgt) as (Hm & H0 & H60 & Hsum).
    eexists _, _. split; [|done].
    unfold report_lines. do 5 (apply elem_of_app; right).
    apply elem_of_app. left. unfold minutes_line.
    apply gt_spec in Hgt. rewrite Hgt. left.
  - intros m s Hin%EvMinutes_in_report. unfold minutes_line in Hin.
    rewrite Hgt in Hin. by apply elem_of_nil in Hin.
Qed.

Lemma minutes_and_seconds_witness :
  exists m s,
    EvMinutes m s
      ∈ printed sample_world (snd (report sample_sums 125 sample_world))
    /\ (1 <= m)%Z /\ (0 <= s)%Q /\ (s < 60)%Q
    /\ (inject_Z m * 60 + s == 125)%Q.
Proof.
  apply (minutes_and_seconds sample_sums 125 sample_world).
  intros _ _. reflexivity.
Defined.

(** ** What the loop prints and how often it calls the service *)

Lemma announced_app E1 E2 : announced (E1 ++ E2) = announced E1 ++ announced E2.
Proof. apply omap_app. Qed.

Lemma announced_api_errors E :
  (forall e, e ∈ E -> exists x, e = EvApiError x) -> announced E = [].
Proof.
  induction E as [|e E IH]; intros H; [done|].
  destruct (H e) as [x ->]; [left|]. simpl. apply IH.
  intros e' He'. apply H. by right.
Qed.

(** The loop body announces its file once and calls the service exactly
    when the verdict is one of a file that was sent. *)
Lemma process_file_trace src out f acc w :
  exists acc' w' E v,
    process_file src out f acc w = (Ret acc', w')
    /\ console w' = console w ++ E
    /\ announced E = [f] /\ verdicts E = [v]
    /\ calls w' = calls w + (if sent v then 1 else 0).
Proof.
  destruct acc as [[s k] t].
  destruct (process_file_run src out f s k t w)
    as (w0 & E0 & Hcon0 & _ & _ & _ & H0).
  assert (exists acc' v,
            process_file src out f (s, k, t) w = (Ret acc', w0)
            /\ verdicts E0 = [v]
            /\ calls w0 = calls w + (if sent v then 1 else 0))
    as (acc' & v & Hrun & Hv & Hc).
  { destruct (stat (fs w) (os_path_join src f)) as [[|[raw|]]|].
    1,3,4: destruct H0 as (Hrun & _ & Hc & Hv); eexists _, _;
      (split_and!; [exact Hrun|exact Hv|simpl; lia]).
    destruct (blank raw).
    { destruct H0 as (Hrun & _ & Hc & Hv); eexists _, _;
        (split_and!; [exact Hrun|exact Hv|simpl; lia]). }
    cbv zeta in H0. destruct H0 as (Hc & H0).
    destruct (fst _) as [text|]; [destruct (write_outcome _ _ _ _) as [[?|] ?]|];
      destruct H0 as (Hrun & _ & Hv); eexists _, _;
      (split_and!; [exact Hrun|exact Hv|simpl; lia]). }
  exists acc', w0, E0, v. split_and!; try done.
  (* the announcement, read off the body *)
  clear H0 Hv Hc. revert Hrun. unfold process_file. run.
  destruct (stat (fs w) (os_path_join src f)) as [[|[raw|]]|]; simpl.
  1,3,4: intros [= _ <-]; simpl in Hcon0; rewrite <- app_assoc in Hcon0;
    apply app_inv_head in Hcon0; by subst E0.
  destruct (negb (truthy (strip raw))); simpl.
  { intros [= _ <-]; simpl in Hcon0; rewrite <- app_assoc in Hcon0;
    apply app_inv_head in Hcon0; by subst E0. }
  set (w1 := set_console _ _).
  destruct (clean_single_text_run raw w1)
    as (w2 & Hclean & _ & _ & _ & _ & _ & _ & E & Hcon & HE).
  rewrite Hclean. simpl.
  assert (Hw1 : console w1 = console w ++ [EvProcessing f]) by done.
  destruct (fst (cleaned_of _ _)) as [text|]; simpl;
    [destruct (write_outcome _ _ text (fs w2)) as [[?|] ?]; simpl|];
    intros [= _ <-]; simpl in Hcon0;
    rewrite Hcon, Hw1, <- !app_assoc in Hcon0;
    apply app_inv_head in Hcon0; subst E0; simpl;
    by rewrite announced_app, (announced_api_errors E HE).
Qed.

Lemma files_trace src out files acc w :
  exists acc' w' E,
    for_each files (process_file src out) acc w = (Ret acc', w')
    /\ console w' = console w ++ E
    /\ announced E = files
    /\ calls w' = calls w + length (List.filter sent (verdicts E)).
Proof.
  revert acc w. induction files as [|f files IH]; intros acc w.
  { exists acc, w, []. rewrite app_nil_r. simpl. by split_and!. }
  destruct (process_file_trace src out f acc w)
    as (acc1 & w1 & E1 & v & Hrun1 & Hcon1 & Ha1 & Hv1 & Hc1).
  destruct (IH acc1 w1) as (acc2 & w2 & E2 & Hrun2 & Hcon2 & Ha2 & Hc2).
  exists acc2, w2, (E1 ++ E2).
  rewrite for_each_cons, Hrun1, Hrun2, Hcon2, Hcon1, app_assoc.
  rewrite announced_app, verdicts_app, List.filter_app, length_app, Ha1, Ha2, Hv1.
  split_and!; try done. rewrite Hc2, Hc1. simpl. destruct (sent v); simpl; lia.
Qed.

Lemma process_directory_trace src out w s k n t w' :
  process_directory src out w = (Ret (s, k, n, t), w') ->
  announced (printed w w') = txt_files_of (fs w) src (entries (fs w) src)
  /\ calls w' = calls w + length (List.filter sent (verdicts (printed w w'))).
Proof.
  unfold process_directory, os_listdir. run.
  destruct (isdir (fs w) src); [simpl|done].
  destruct (txt_files_of (fs w) src (entries (fs w) src)) as [|f files] eqn:Hfiles.
  { simpl. intros [= _ _ _ _ <-]. unfold printed. simpl.
    rewrite drop_app_length. simpl. split; [done|lia]. }
  unfold os_makedirs. simpl.
  destruct (makedirs out (fs w)) as [m|]; [|done].
  set (w1 := set_fs m _).
  destruct (files_trace src out (f :: files) (0, 0, 0%Q) w1)
    as ([[s' k'] t'] & w2 & E & -> & Hcon & Ha & Hc).
  intros [= _ _ _ _ <-].
  assert (Hp : printed w w2
               = EvDirFound (os_path_basename src) (S (length files)) :: E).
  { apply printed_app. rewrite Hcon. subst w1. simpl. by rewrite <- app_assoc. }
  rewrite Hp. change (announced (_ :: E)) with (announced E).
  change (verdicts (_ :: E)) with (verdicts E). done.
Qed.

(** Lines 59-61: a finished [process_directory] has announced every
    eligible file once, in the order of the listing, and no other file. *)
Theorem files_announced_in_order src out w s k n t w' :
  process_directory src out w = (Ret (s, k, n, t), w') ->
  announced (printed w w') = txt_files_of (fs w) src (entries (fs w) src).
Proof. intros H. by apply process_directory_trace in H as [? _]. Qed.

(** Lines 73-79: a finished [process_directory] has called the service
    once for each file that was read and is not blank, whatever became of
    the answer, and never for another file: no call is repeated, and the
    calls, the skipped files and the unreadable files add up to the
    eligible files. *)
Theorem one_call_per_file_sent src out w s k n t w' :
  process_directory src out w = (Ret (s, k, n, t), w') ->
  let vs := verdicts (printed w w') in
  calls w' = calls w + length (List.filter sent vs)
  /\ length (List.filter sent vs) + k
     + length (List.filter (fun v => negb (sent v) && is_failure v) vs) = n.
Proof.
  intros Hrun vs.
  destruct (process_directory_trace _ _ _ _ _ _ _ _ Hrun) as [_ Hc].
  split; [done|].
  assert (k = count SkippedEmpty vs /\ length vs = n) as [-> <-].
  { clear Hc. subst vs. revert Hrun. unfold process_directory, os_listdir. run.
    destruct (isdir (fs w) src); [simpl|done].
    destruct (txt_files_of (fs w) src (entries (fs w) src)) as [|f files].
    { simpl. intros [= _ <- <- _ <-]. unfold printed. simpl.
      by rewrite drop_app_length. }
    unfold os_makedirs. simpl.
    destruct (makedirs out (fs w)) as [m|]; [|done].
    set (w1 := set_fs m _).
    destruct (files_run src out (f :: files) 0 0 0%Q w1)
      as (s' & k' & t' & w2 & E & -> & Hcon & Hlen & _ & -> & _).
    intros [= _ <- <- _ <-].
    assert (Hp : printed w w2
                 = EvDirFound (os_path_basename src) (S (length files)) :: E).
    { apply printed_app. rewrite Hcon. subst w1. simpl.
      by rewrite <- app_assoc. }
    rewrite Hp. change (verdicts (_ :: E)) with (verdicts E). done. }
  clear. induction vs as [|v vs IH]; [done|].
  change (v :: vs) with ([v] ++ vs).
  rewrite count_app, !List.filter_app, !length_app, <- IH.
  destruct v; vm_compute (count _ [_]); simpl; lia.
Qed.

Lemma files_announced_in_order_witness :
  announced (printed sample_world
               (snd (process_directory ["part2"; "alpha"] ["out"] sample_world)))
  = txt_files_of (fs sample_world) ["part2"; "alpha"]
      (entries (fs sample_world) ["part2"; "alpha"]).
Proof.
  apply (files_announced_in_order ["part2"; "alpha"] ["out"] sample_world 1 1 2
           (0 + (sample_clock 3 - sample_clock 2))%Q).
  vm_compute. reflexivity.
Defined.

Lemma one_call_per_file_sent_witness :
  let w' := snd (process_directory ["part2"; "alpha"] ["out"] sample_world) in
  let vs := verdicts (printed sample_world w') in
  calls w' = calls sample_world + length (List.filter sent vs)
  /\ length (List.filter sent vs) + 1
     + length (List.filter (fun v => negb (sent v) && is_failure v) vs) = 2.
Proof.
  apply (one_call_per_file_sent ["part2"; "alpha"] ["out"] sample_world 1 1 2
           (0 + (sample_clock 3 - sample_clock 2))%Q).
  vm_compute. reflexivity.
Defined.

(** ** The share of the service time under a steady clock *)

Lemma steady_next (w : world) (i j : nat) :
  steady w -> i <= j -> (clock w i <= clock w j)%Q.
Proof. intros H. apply H. Qed.

(** The time [clean_single_text] reports has passed on the clock. *)
Lemma clean_single_text_time raw w :
  steady w ->
  exists r w',
    clean_single_text raw w = (Ret r, w')
    /\ clock w' = clock w /\ ticks w <= ticks w'
    /\ (snd r + next w <= next w')%Q.
Proof.
  intros Hst. unfold clean_single_text, next. run.
  pose proof (Hst (ticks w) (S (ticks w)) ltac:(lia)) as H1.
  pose proof (Hst (S (ticks w)) (S (S (ticks w))) ltac:(lia)) as H2.
  destruct (service w (calls w) raw) as [e|[|c r]]; simpl;
    eexists _, _; (split; [reflexivity|]); simpl;
    (split_and!; [done|lia|lra]).
Qed.

(** The time the loop body adds to [total_api_time] has passed on the
    clock while it ran. *)
Lemma process_file_time src out f s k t w :
  steady w ->
  exists s' k' t' w',
    process_file src out f (s, k, t) w = (Ret (s', k', t'), w')
    /\ clock w' = clock w /\ ticks w <= ticks w'
    /\ (t' + next w <= t + next w')%Q.
Proof.
  intros Hst. unfold process_file. run.
  pose proof (Hst (ticks w) (S (ticks w)) ltac:(lia)) as H1.
  destruct (stat (fs w) (os_path_join src f)) as [[|[raw|]]|]; simpl.
  1,3,4: eexists _, _, _, _; (split; [reflexivity|]); unfold next; simpl;
    (split_and!; [done|lia|lra]).
  destruct (negb (truthy (strip raw))); simpl.
  { eexists _, _, _, _; (split; [reflexivity|]); unfold next; simpl;
    (split_and!; [done|lia|lra]). }
  set (w1 := set_console _ _).
  destruct (clean_single_text_time raw w1) as ([c d] & w2 & -> & Hclk & Htk & Hd);
    [done|].
  simpl. unfold next in Hd. rewrite Hclk in Hd. simpl in Hd, Hclk, Htk.
  pose proof (Hst (ticks w2) (S (ticks w2)) ltac:(lia)) as H2.
  destruct c as [text|]; simpl; [destruct (write_outcome _ _ text (fs w2)) as [[?|] ?]; simpl|];
    eexists _, _, _, _; (split; [reflexivity|]); unfold next; simpl;
    rewrite ?Hclk; simpl; (split_and!; [done|lia|lra]).
Qed.

Lemma files_time src out files s k t w :
  steady w ->
  exists s' k' t' w',
    for_each files (process_file src out) (s, k, t) w = (Ret (s', k', t'), w')
    /\ clock w' = clock w /\ ticks w <= ticks w'
    /\ (t' + next w <= t + next w')%Q.
Proof.
  revert s k t w. induction files as [|f files IH]; intros s k t w Hst.
  { exists s, k, t, w. split_and!; try done. lra. }
  destruct (process_file_time src out f s k t w Hst)
    as (s1 & k1 & t1 & w1 & Hrun1 & Hclk1 & Htk1 & Ht1).
  destruct (IH s1 k1 t1 w1) as (s2 & k2 & t2 & w2 & Hrun2 & Hclk2 & Htk2 & Ht2).
  { unfold steady. rewrite Hclk1. apply Hst. }
  exists s2, k2, t2, w2. rewrite for_each_cons, Hrun1, Hrun2.
  split_and!; [done|congruence|lia|lra].
Qed.

Lemma process_directory_time src out w :
  steady w ->
  match process_directory src out w with
  | (Ret (s, k, n, t), w') =>
      clock w' = clock w /\ ticks w <= ticks w' /\ (t + next w <= next w')%Q
  | (Raise e, _) => e = OSError
  end.
Proof.
  intros Hst. unfold process_directory, os_listdir. run.
  destruct (isdir (fs w) src); [simpl|done].
  destruct (txt_files_of (fs w) src (entries (fs w) src)) as [|f files].
  { simpl. unfold next. simpl. split_and!; [done|lia|lra]. }
  unfold os_makedirs. simpl.
  destruct (makedirs out (fs w)) as [m|]; [|done].
  set (w1 := set_fs m _).
  destruct (files_time src out (f :: files) 0 0 0%Q w1)
    as (s' & k' & t' & w2 & -> & Hclk & Htk & Ht); [done|].
  simpl. unfold next in *. simpl in *. split_and!; [done|lia|lra].
Qed.

Lemma process_unit_time u acc w :
  steady w ->
  match process_unit u acc w with
  | (Ret acc', w') =>
      clock w' = clock w /\ ticks w <= ticks w'
      /\ (total_api_time acc' + next w <= total_api_time acc + next w')%Q
  | (Raise e, _) => e = OSError
  end.
Proof.
  intros Hst. destruct u as [d src]. unfold process_unit. run.
  set (out := if truthy d then _ else _). set (w1 := set_ticks _ _).
  pose proof (process_directory_time src out w1 Hst) as H.
  destruct (process_directory src out w1) as [[[[[s k] n] t]|e] w2]; [|done].
  destruct H as (Hclk & Htk & Ht). simpl. unfold next in *. simpl in *.
  rewrite Hclk. simpl.
  pose proof (Hst (ticks w) (S (ticks w)) ltac:(lia)) as H1.
  pose proof (Hst (ticks w2) (S (ticks w2)) ltac:(lia)) as H2.
  rewrite Hclk in Ht. simpl in Ht.
  split_and!; [done|lia|lra].
Qed.

Lemma units_time units acc w :
  steady w ->
  match for_each units process_unit acc w with
  | (Ret acc', w') =>
      clock w' = clock w /\ ticks w <= ticks w'
      /\ (total_api_time acc' + next w <= total_api_time acc + next w')%Q
  | (Raise e, _) => e = OSError
  end.
Proof.
  revert acc w. induction units as [|u units IH]; intros acc w Hst.
  { simpl. split_and!; [done|lia|lra]. }
  rewrite for_each_cons. pose proof (process_unit_time u acc w Hst) as H1.
  destruct (process_unit u acc w) as [[acc1|e] w1]; [|done].
  destruct H1 as (Hclk1 & Htk1 & Ht1).
  assert (Hst1 : steady w1) by (unfold steady; by rewrite Hclk1).
  pose proof (IH acc1 w1 Hst1) as H2.
  destruct (for_each units process_unit acc1 w1) as [[acc2|e] w2]; [|done].
  destruct H2 as (Hclk2 & Htk2 & Ht2).
  split_and!; [congruence|lia|lra].
Qed.

Lemma process_root_directory_errors w :
  steady w ->
  forall e, fst (process_root_directory w) = Raise e -> e = OSError.
Proof.
  intros Hst e. unfold process_root_directory, os_path_exists, os_listdir. run.
  destruct (exists_ (fs w) ROOT_SOURCE_FOLDER); [simpl|done].
  destruct (isdir (fs w) ROOT_SOURCE_FOLDER); simpl; [|by intros [= <-]].
  set (units := subdirs_of _ _ _).
  assert (Hgo : forall us w1,
            clock w1 = clock w -> ticks w1 = S (ticks w) ->
            fst (match for_each us process_unit (Totals 0 0 0 0%Q []) w1 with
                 | (Ret sums, w2) =>
                     let (o, w3) := time_time w2 in
                     match o with
                     | Ret t => report sums (t - clock w (ticks w))%Q w3
                     | Raise e => (Raise e, w3)
                     end
                 | (Raise e, w2) => (Raise e, w2)
                 end) = Raise e -> e = OSError).
  { intros us w1 Hclk Htk.
    assert (Hst1 : steady w1) by (unfold steady; by rewrite Hclk).
    pose proof (units_time us (Totals 0 0 0 0%Q []) w1 Hst1) as H.
    destruct (for_each us process_unit _ w1) as [[sums|e'] w2];
      [|simpl; intros [= <-]; done].
    destruct H as (Hclk2 & Htk2 & Ht2). unfold time_time. simpl.
    rewrite report_run; [done|].
    intros _ Ha%gt_spec. simpl in Ht2. unfold next in Ht2.
    rewrite Hclk2, Hclk, Htk in *.
    pose proof (Hst (ticks w) (S (ticks w)) ltac:(lia)) as H1.
    apply not_true_iff_false. rewrite Qeq_bool_iff. lra. }
  destruct units as [|u us]; simpl; apply Hgo; done.
Qed.

(** With a clock that never goes backwards the share of lines 193-195
    cannot divide by zero: a positive [total_api_time] is time that has
    passed between line 110 and line 167.  The only errors that end the
    script are then those of the module body and of the directory level:
    the client that cannot be constructed, a directory that cannot be
    listed or made. *)
Theorem steady_clock_errors w e :
  steady w ->
  fst (main w) = Raise e ->
  e = OSError \/ e = OpenAIError.
Proof.
  intros Hst. unfold main, module_body, OpenAI, os_makedirs. run.
  destruct (credentials w); simpl; [|intros [= <-]; by right].
  destruct (makedirs ROOT_OUTPUT_FOLDER (fs w)) as [m|]; simpl;
    [|intros [= <-]; by left].
  intros H. left. by apply (process_root_directory_errors (set_fs m w)).
Qed.

Lemma sample_clock_steady (w : world) : clock w = sample_clock -> steady w.
Proof.
  intros Hc i j Hij. rewrite Hc. unfold sample_clock, of_int.
  rewrite <- Zle_Qle. lia.
Qed.

Lemma steady_clock_errors_witness :
  fst (main clash_world) = Raise OSError
  /\ (OSError = OSError \/ OSError = OpenAIError).
Proof.
  assert (H : fst (main clash_world) = Raise OSError)
    by (vm_compute; reflexivity).
  split; [exact H|].
  apply (steady_clock_errors clash_world OSError).
  - by apply sample_clock_steady.
  - exact H.
Defined.

(** ** A service that is down *)

Lemma files_dead src out files s k t w :
  (forall n text, exists e, service w n text = inl e) ->
  exists k' t' w',
    for_each files (process_file src out) (s, k, t) w = (Ret (s, k', t'), w')
    /\ fs w' = fs w /\ (t' == t)%Q.
Proof.
  revert k t w. induction files as [|f files IH]; intros k t w Hdead.
  { exists k, t, w. split_and!; done. }
  destruct (process_file_run src out f s k t w)
    as (w1 & E & _ & Hsvc & _ & _ & H).
  assert (exists k1 t1,
            process_file src out f (s, k, t) w = (Ret (s, k1, t1), w1)
            /\ fs w1 = fs w /\ (t1 == t)%Q) as (k1 & t1 & Hrun & Hfs & Ht).
  { destruct (stat (fs w) (os_path_join src f)) as [[|[raw|]]|].
    1,3,4: destruct H as (Hrun & Hfs & _); eexists _, _; split_and!; done.
    destruct (blank raw).
    { destruct H as (Hrun & Hfs & _); eexists _, _; split_and!; done. }
    destruct (Hdead (calls w) raw) as [e He]. rewrite He in H.
    cbn [cleaned_of fst snd] in H. destruct H as (_ & Hrun & Hfs & _).
    eexists _, _; split_and!; [done..|]. ring. }
  destruct (IH k1 t1 w1) as (k2 & t2 & w2 & Hrun2 & Hfs2 & Ht2).
  { intros n text. rewrite Hsvc. apply Hdead. }
  exists k2, t2, w2. rewrite for_each_cons, Hrun, Hrun2.
  split_and!; [done|congruence|]. by rewrite Ht2.
Qed.

(** Lines 35-37 and 84-96: while every service call fails, a directory
    run counts no success and no service time, and stores no file; the
    one thing it may leave behind is the output directory it made at the
    start. *)
Theorem dead_service_no_output src out w s k n t w' :
  (forall i text, exists e, service w i text = inl e) ->
  process_directory src out w = (Ret (s, k, n, t), w') ->
  s = 0 /\ (t == 0)%Q
  /\ forall q, fs w' !! q <> fs w !! q ->
               fs w !! q = None /\ fs w' !! q = Some Dir /\ q `prefix_of` out.
Proof.
  intros Hdead. unfold process_directory, os_listdir. run.
  destruct (isdir (fs w) src); [simpl|done].
  destruct (txt_files_of (fs w) src (entries (fs w) src)) as [|f files].
  { simpl. intros [= <- _ _ <- <-]. simpl. split_and!; done. }
  unfold os_makedirs. simpl.
  destruct (makedirs out (fs w)) as [m|] eqn:Hmk; [|done].
  set (w1 := set_fs m _).
  destruct (files_dead src out (f :: files) 0 0 0%Q w1)
    as (k' & t' & w2 & -> & Hfs & Ht); [done|].
  intros [= <- _ _ <- <-]. split_and!; [done..|].
  intros q Hq. rewrite Hfs in *. simpl in *.
  destruct (makedirs_evolves _ _ _ Hmk q) as [E|[((_ & Hpre) & Hn & E)|([] & _)]];
    done.
Qed.

Lemma dead_service_no_output_witness :
  let w' := snd (process_directory ["in"] ["out"] down_world) in
  0 = 0 /\ ((0 + 0 + 0 + 0)%Q == 0)%Q
  /\ forall q, fs w' !! q <> fs down_world !! q ->
               fs down_world !! q = None /\ fs w' !! q = Some Dir
               /\ q `prefix_of` ["out"].
Proof.
  apply (dead_service_no_output ["in"] ["out"] down_world 0 0 3
           (0 + 0 + 0 + 0)%Q).
  - intros i text. by exists (APIError "down").
  - vm_compute. reflexivity.
Defined.

(** ** Where the outputs go *)

Lemma txt_files_mem (m : fsys) (src : path) (f : string) :
  f ∈ txt_files_of m src (entries m src) <-> eligible m src f.
Proof.
  unfold txt_files_of, eligible.
  rewrite list_elem_of_In, filter_In, <- list_elem_of_In, entries_spec.
  rewrite andb_true_iff. unfold isfile. rewrite stat_join. split.
  - intros (_ & Hext & Hfile). split; [done|].
    destruct (m !! os_path_join src f) as [[|c]|]; eauto; done.
  - intros (Hext & c & Hc). rewrite Hc. eauto.
Qed.

Lemma subdirs_mem (m : fsys) (root : path) (d : string) (p : path) :
  (d, p) ∈ subdirs_of m root (entries m root)
  <-> p = os_path_join root d /\ isdir m (os_path_join root d) = true.
Proof.
  unfold subdirs_of. rewrite list_elem_of_omap. split.
  - intros (x & _ & H). destruct (isdir m (os_path_join root x)) eqn:Hd; [|done].
    by injection H as <- <-.
  - intros [-> Hd]. exists d. rewrite Hd. split; [|done].
    apply entries_spec. unfold isdir in Hd. rewrite stat_join in Hd.
    destruct (m !! os_path_join root d); [eauto|done].
Qed.

Lemma report_keeps_fs sums el w : fs (snd (report sums el w)) = fs w.
Proof.
  destruct (decide (0 < total_success sums
                    /\ gt (total_api_time sums) 0 = true
                    /\ Qeq_bool el 0 = true)) as [(Hs & Ha & Hz)|Hok].
  - unfold report. rewrite !bind_print. unfold bind at 1.
    rewrite report_dirs_run. rewrite !bind_print. unfold bind at 1.
    apply Nat.ltb_lt in Hs. rewrite Hs.
    rewrite !(bind_truediv _ (of_int _))
      by (apply of_int_nonzero; by apply Nat.ltb_lt).
    rewrite bind_print, bind_truediv
      by (apply of_int_nonzero; by apply Nat.ltb_lt).
    rewrite bind_print, Ha. unfold bind, truediv. by rewrite Hz.
  - rewrite report_run; [done|]. intros Hs Ha.
    destruct (Qeq_bool el 0) eqn:Hz; [|done]. by destruct Hok.
Qed.

Lemma evolves_outside (F : path -> Prop) (m m' : fsys) :
  (forall q, F q -> ROOT_OUTPUT_FOLDER `prefix_of` q) ->
  evolves output_dirs F m m' -> outside_output m m'.
Proof.
  intros HF H q Hq.
  destruct (H q) as [E|[(Hd & _)|(Hf & _)]]; [done|..].
  - by apply output_dirs_below in Hd.
  - by apply HF in Hf.
Qed.

Lemma mirrored_below m units q :
  mirrored m units q -> ROOT_OUTPUT_FOLDER `prefix_of` q.
Proof.
  intros (d & src & f & _ & _ & ->). unfold output_dir_of.
  apply output_files_below. unfold output_files.
  destruct (truthy d); eauto.
Qed.

(** One unit, in a world that still holds the sources of the start. *)
Lemma process_unit_mirror (m : fsys) d src rest acc w1 :
  src = ROOT_SOURCE_FOLDER ++ rest ->
  outside_output m (fs w1) ->
  evolves output_dirs (mirrored m [(d, src)])
    (fs w1) (fs (snd (process_unit (d, src) acc w1))).
Proof.
  intros Hsrc Hout. unfold process_unit. run.
  fold (output_dir_of d). set (w2 := set_ticks _ _).
  pose proof (process_directory_evolves src (output_dir_of d) w2) as H.
  assert (Hmono : forall q,
            cleaned_in (output_dir_of d)
              (txt_files_of (fs w2) src (entries (fs w2) src)) q ->
            mirrored m [(d, src)] q).
  { intros q (f & Hf & ->). exists d, src, f. split; [left|]. split; [|done].
    apply txt_files_mem in Hf as (Hext & c & Hc). split; [done|]. exists c.
    rewrite <- Hc. symmetry. apply Hout. subst src.
    unfold os_path_join, ROOT_SOURCE_FOLDER. intros [k Hk]. done. }
  destruct (process_directory src (output_dir_of d) w2)
    as [[[[[s k] n] t]|e] w3]; simpl in *;
    (eapply evolves_mono; [apply along_output|exact Hmono|exact H]).
Qed.

Lemma mirrored_mono m units units' q :
  (forall u, u ∈ units -> u ∈ units') ->
  mirrored m units q -> mirrored m units' q.
Proof. intros Hsub (d & src & f & Hu & H). exists d, src, f. eauto. Qed.

#[global] Arguments process_unit : simpl never.

Lemma process_unit_mirror' (m : fsys) d src rest acc w1 r w2 :
  src = ROOT_SOURCE_FOLDER ++ rest ->
  outside_output m (fs w1) ->
  process_unit (d, src) acc w1 = (r, w2) ->
  evolves output_dirs (mirrored m [(d, src)]) (fs w1) (fs w2).
Proof.
  intros Hsrc Hout Hrun.
  pose proof (process_unit_mirror m d src rest acc w1 Hsrc Hout) as H.
  by rewrite Hrun in H.
Qed.

Lemma units_mirror (m : fsys) units :
  (forall d src, (d, src) ∈ units -> exists rest, src = ROOT_SOURCE_FOLDER ++ rest) ->
  forall acc w1,
    outside_output m (fs w1) ->
    evolves output_dirs (mirrored m units)
      (fs w1) (fs (snd (for_each units process_unit acc w1))).
Proof.
  induction units as [|[d src] units IH]; intros Hshape acc w1 Hout;
    [apply evolves_refl|].
  rewrite for_each_cons.
  destruct (Hshape d src ltac:(left)) as [rest Hsrc].
  assert (Hone : forall q, mirrored m [(d, src)] q
                           -> mirrored m ((d, src) :: units) q).
  { intros q. apply mirrored_mono. intros u ->%list_elem_of_singleton. left. }
  destruct (process_unit (d, src) acc w1) as [r w2] eqn:Hrun.
  pose proof (process_unit_mirror' m d src rest acc w1 r w2 Hsrc Hout Hrun)
    as H1.
  destruct r as [acc2|e].
  - eapply evolves_trans.
    + eapply evolves_mono; [done|exact Hone|exact H1].
    + eapply evolves_mono; [done| |apply IH].
      * intros q. apply mirrored_mono. intros u Hu. by right.
      * intros d' src' Hu. apply (Hshape d' src'). by right.
      * intros q Hq. rewrite <- (Hout q Hq).
        eapply (evolves_outside _ _ _ (mirrored_below m [(d, src)]));
          [exact H1|done].
  - eapply evolves_mono; [done|exact Hone|exact H1].
Qed.

Lemma process_root_directory_mirror w :
  evolves output_dirs
    (mirrored (fs w)
       match subdirs_of (fs w) ROOT_SOURCE_FOLDER
               (entries (fs w) ROOT_SOURCE_FOLDER) with
       | [] => [("", ROOT_SOURCE_FOLDER)]
       | subs => subs
       end)
    (fs w) (fs (snd (process_root_directory w))).
Proof.
  unfold process_root_directory, os_path_exists, os_listdir. run.
  destruct (exists_ (fs w) ROOT_SOURCE_FOLDER); [simpl|apply evolves_refl].
  destruct (isdir (fs w) ROOT_SOURCE_FOLDER); [simpl|apply evolves_refl].
  set (units := subdirs_of _ _ _).
  assert (Hgo : forall us w1,
            fs w1 = fs w ->
            (forall d src, (d, src) ∈ us ->
                           exists rest, src = ROOT_SOURCE_FOLDER ++ rest) ->
            evolves output_dirs (mirrored (fs w) us) (fs w)
              (fs (snd (match for_each us process_unit (Totals 0 0 0 0%Q []) w1
                        with
                        | (Ret sums, w2) =>
                            let (o, w3) := time_time w2 in
                            match o with
                            | Ret t =>
                                report sums (t - clock w (ticks w))%Q w3
                            | Raise e => (Raise e, w3)
                            end
                        | (Raise e, w2) => (Raise e, w2)
                        end)))).
  { intros us w1 Hw1 Hshape.
    pose proof (units_mirror (fs w) us Hshape (Totals 0 0 0 0%Q []) w1) as H.
    rewrite Hw1 in H. specialize (H (fun q _ => eq_refl)).
    destruct (for_each us process_unit _ w1) as [[sums|e] w2]; [|done].
    unfold time_time. simpl in *. by rewrite report_keeps_fs. }
  destruct units as [|u us] eqn:Hunits; simpl; apply Hgo; try done.
  - intros d src Hin. apply list_elem_of_singleton in Hin.
    injection Hin as -> ->. by exists [].
  - intros d src Hin. rewrite <- Hunits in Hin. subst units.
    apply subdirs_mem in Hin as [-> _]. by eexists.
Qed.

(** Lines 112-122 and 138-142 with lines 43-44 and 86-87: every text the
    orchestrator stores mirrors an eligible source file: it is at
    [output/d/cleaned_<f>] for a subdirectory [d] of the root and a [.txt]
    file [f] directly inside it, or, only when the root has no
    subdirectory at all, at [output/cleaned_<f>] for a [.txt] file [f]
    directly inside the root.  Loose files of a root that has
    subdirectories are never cleaned. *)
Theorem outputs_mirror_sources w q text :
  fs (snd (process_root_directory w)) !! q = Some (File (Some text)) ->
  fs w !! q <> Some (File (Some text)) ->
  exists d f content,
    q = os_path_join (output_dir_of d) ("cleaned_" +:+ f)
    /\ endswith f ".txt" = true
    /\ (isdir (fs w) (os_path_join ROOT_SOURCE_FOLDER d) = true
        /\ fs w !! os_path_join (os_path_join ROOT_SOURCE_FOLDER d) f
           = Some (File content)
        \/ d = ""
           /\ (forall x, isdir (fs w) (os_path_join ROOT_SOURCE_FOLDER x) = false)
           /\ fs w !! os_path_join ROOT_SOURCE_FOLDER f = Some (File content)).
Proof.
  intros Hnew Hold.
  destruct (process_root_directory_mirror w q)
    as [E|[(_ & _ & E)|((d & src & f & Hu & (Hext & c & Hc) & ->) & _)]];
    [congruence..|].
  exists d, f, c. split; [done|]. split; [done|].
  destruct (subdirs_of (fs w) ROOT_SOURCE_FOLDER
              (entries (fs w) ROOT_SOURCE_FOLDER)) as [|u us] eqn:Hsubs.
  - apply list_elem_of_singleton in Hu. injection Hu as -> ->. right.
    split_and!; [done| |done]. intros x.
    destruct (isdir (fs w) (os_path_join ROOT_SOURCE_FOLDER x)) eqn:Hd; [|done].
    assert (Hin : (x, os_path_join ROOT_SOURCE_FOLDER x)
                  ∈ subdirs_of (fs w) ROOT_SOURCE_FOLDER
                      (entries (fs w) ROOT_SOURCE_FOLDER))
      by by apply subdirs_mem.
    rewrite Hsubs in Hin. by apply elem_of_nil in Hin.
  - rewrite <- Hsubs in Hu. apply subdirs_mem in Hu as [-> Hd]. by left.
Qed.

Lemma outputs_mirror_sources_witness :
  exists d f content,
    ["cleaned_txt_part2"; "alpha"; "cleaned_a.txt"]
    = os_path_join (output_dir_of d) ("cleaned_" +:+ f)
    /\ endswith f ".txt" = true
    /\ (isdir (fs sample_world) (os_path_join ROOT_SOURCE_FOLDER d) = true
        /\ fs sample_world !! os_path_join (os_path_join ROOT_SOURCE_FOLDER d) f
           = Some (File content)
        \/ d = ""
           /\ (forall x, isdir (fs sample_world)
                           (os_path_join ROOT_SOURCE_FOLDER x) = false)
           /\ fs sample_world !! os_path_join ROOT_SOURCE_FOLDER f
              = Some (File content)).
Proof.
  apply (outputs_mirror_sources sample_world
           ["cleaned_txt_part2"; "alpha"; "cleaned_a.txt"] "clean:hello").
  - vm_compute. reflexivity.
  - vm_compute. discriminate.
Defined.
